(** * map-ev-chargers: station synchronisation and route normalisation

    A shallow embedding of the parts of the repository that carry logic:

    - [src/services/mapbox/evRouting.ts]  ([calculateEvRoute],
      [calculateTotalChargingTime]),
    - [src/app/api/routes/ev/route.ts]    ([GET] and its connector-type
      mapping),
    - [src/app/api/charging-stations/route.ts] ([GET] and its transformation
      of the Mapbox features),
    - [src/services/mapbox/chargingStations.ts] ([fetchChargingStations],
      [fetchChargingStationDetails]),
    - [src/components/MapWrapper.tsx]     ([fetchStations], [handleMapMove],
      the mount and unmount effects, [fetchStationDetails]),
    - [src/app/routes/page.tsx]           ([calculateZoomLevel],
      [calculateRoute]).

    JavaScript numbers are IEEE-754 doubles and are modelled by Rocq's
    primitive floats; JSON documents are modelled by an inductive type of
    values; [throw] is modelled by a completion monad; React state, timers and
    pending requests are modelled by an explicit state record and a step
    function over events. *)

From Stdlib Require Import List String Ascii ZArith NArith Bool Lia.
From Stdlib Require Import DecimalString.
From Stdlib Require Import PrimFloat FloatOps SpecFloat FloatAxioms.
Import ListNotations.

Set Warnings "-inexact-float".
Local Open Scope string_scope.

(* ================================================================== *)
(** ** JavaScript values, exceptions and number formatting             *)
(* ================================================================== *)

Module Js.

(** A value as [JSON.parse] produces it, plus [undefined] (the result of
    reading a property that is not there). *)
#[warnings="-register-all"]
Inductive value : Type :=
| VUndefined
| VNull
| VBool (b : bool)
| VNum (x : float)
| VStr (s : string)
| VArr (xs : list value)
| VObj (fields : list (string * value)).

(** What the modelled code can throw. *)
Inductive exn : Type :=
| TypeError                      (* property read on null/undefined, call of a non-function *)
| SyntaxError                    (* [response.json()] on a body that is not JSON *)
| NetworkError                   (* [fetch] rejected *)
| ApiError (payload : value)     (* [new Error(errorData.error)] *)
| ApiStatusError (status : Z).   (* [new Error(`API request failed with status ...`)] *)

(** Outcome of evaluating a piece of code: a value, or a thrown exception. *)
Inductive completion (A : Type) : Type :=
| Normal (a : A)
| Throw (e : exn).
Arguments Normal {A} a.
Arguments Throw {A} e.

Definition bind {A B} (c : completion A) (k : A -> completion B) : completion B :=
  match c with
  | Normal a => k a
  | Throw e => Throw e
  end.

Declare Scope js_scope.
Delimit Scope js_scope with js.
Notation "x <- c ;; k" := (bind c (fun x => k))
  (at level 61, c at next level, right associativity) : js_scope.

Fixpoint mapM {A B} (f : A -> completion B) (xs : list A) : completion (list B) :=
  match xs with
  | [] => Normal []
  | x :: rest =>
      bind (f x) (fun y => bind (mapM f rest) (fun ys => Normal (y :: ys)))
  end.

(** Own-property lookup in an object literal (keys of a parsed document are
    unique, so the first match is the only one). *)
Fixpoint lookup (k : string) (fields : list (string * value)) : value :=
  match fields with
  | [] => VUndefined
  | (k', v) :: rest => if String.eqb k k' then v else lookup k rest
  end.

(** [v.k] for a data property name [k] other than [length].  Reading from
    [null] or [undefined] throws; reading a name that the value does not own
    gives [undefined].  (None of the names the modelled code reads is defined
    on a prototype, except [length], modelled by [lengthIsZero], and the
    methods [map] and [forEach], modelled by [asArray].) *)
Definition get (v : value) (k : string) : completion value :=
  match v with
  | VUndefined | VNull => Throw TypeError
  | VObj fields => Normal (lookup k fields)
  | VArr _ | VStr _ | VBool _ | VNum _ => Normal VUndefined
  end.

(** [v[0]]. *)
Definition get0 (v : value) : completion value :=
  match v with
  | VUndefined | VNull => Throw TypeError
  | VObj fields => Normal (lookup "0" fields)
  | VArr xs => Normal (match xs with x :: _ => x | [] => VUndefined end)
  | VStr s => Normal (match s with String c _ => VStr (String c EmptyString) | EmptyString => VUndefined end)
  | VBool _ | VNum _ => Normal VUndefined
  end.

(** The receiver of [v.map(f)] or [v.forEach(f)]: only an array has these
    methods, anything else makes the call throw. *)
Definition asArray (v : value) : completion (list value) :=
  match v with
  | VArr xs => Normal xs
  | _ => Throw TypeError
  end.

(** ToBoolean. *)
Definition truthy (v : value) : bool :=
  match v with
  | VUndefined | VNull => false
  | VBool b => b
  | VNum x => negb (PrimFloat.eqb x 0 || PrimFloat.is_nan x)
  | VStr s => negb (String.eqb s "")
  | VArr _ | VObj _ => true
  end.

(** [a || b]. *)
Definition or_else (a b : value) : value := if truthy a then a else b.

(** [v === s] for a string literal [s]. *)
Definition strictEqStr (v : value) (s : string) : bool :=
  match v with
  | VStr t => String.eqb t s
  | _ => false
  end.

(** [v === x] for a number literal [x]. *)
Definition strictEqNum (v : value) (x : float) : bool :=
  match v with
  | VNum y => PrimFloat.eqb y x
  | _ => false
  end.

(** [v.length === 0]: an array or a string has the length of its contents,
    an object the [length] it owns, if any. *)
Definition lengthIsZero (v : value) : completion bool :=
  match v with
  | VUndefined | VNull => Throw TypeError
  | VArr xs => Normal (match xs with [] => true | _ :: _ => false end)
  | VStr s => Normal (String.eqb s "")
  | VObj fields => Normal (strictEqNum (lookup "length" fields) 0)
  | VBool _ | VNum _ => Normal false
  end.

(** *** [Number.prototype.toFixed] *)

Definition decimal (n : Z) : string :=
  NilZero.string_of_uint (N.to_uint (Z.to_N n)).

Fixpoint zeros (n : nat) : string :=
  match n with
  | O => ""
  | S k => String "0" (zeros k)
  end.

(** The digits of [n / 10^f] with exactly [f] digits after the point. *)
Definition fixedDigits (f : nat) (n : Z) : string :=
  let m := decimal n in
  let m := if Nat.leb (String.length m) f then zeros (S f - String.length m) ++ m else m in
  let k := String.length m in
  if Nat.eqb f 0 then m
  else substring 0 (k - f) m ++ "." ++ substring (k - f) f m.

(** The integer [n] for which [n / 10^f - m * 2^e] is closest to zero, the
    larger one when there are two. *)
Definition roundScaled (f : nat) (m : positive) (e : Z) : Z :=
  let num := (Zpos m * 10 ^ Z.of_nat f * 2 ^ Z.max e 0)%Z in
  let den := (2 ^ Z.max (- e) 0)%Z in
  ((2 * num + den) / (2 * den))%Z.

Definition roundsTo (v : Z) (m : positive) (e : Z) : bool :=
  match binary_normalize prec emax v 0 false with
  | S754_finite false m' e' => Pos.eqb m m' && Z.eqb e e'
  | _ => false
  end.

Definition numDigits (n : Z) : nat := String.length (decimal n).

(** Candidates [s] with [k] digits such that [s * 10^(n-k)] reads back as the
    double [m * 2^e] (an integer [x]), closest to [x] first. *)
Definition shortestAt (x : Z) (m : positive) (e : Z) (n k : nat) : option Z :=
  let p := (10 ^ Z.of_nat (n - k))%Z in
  let lo := (x / p)%Z in
  let hi := (lo + 1)%Z in
  let ok s := (10 ^ Z.of_nat (k - 1) <=? s)%Z && (s <? 10 ^ Z.of_nat k)%Z && roundsTo (s * p) m e in
  let dlo := (x - lo * p)%Z in
  let dhi := (hi * p - x)%Z in
  match ok lo, ok hi with
  | true, true =>
      if (dlo <? dhi)%Z then Some lo
      else if (dhi <? dlo)%Z then Some hi
      else Some (if Z.even lo then lo else hi)
  | true, false => Some lo
  | false, true => Some hi
  | false, false => None
  end.

Fixpoint shortestFrom (x : Z) (m : positive) (e : Z) (n k fuel : nat) : option (nat * nat * Z) :=
  match fuel with
  | O => None
  | S fuel' =>
      match shortestAt x m e n k with
      | Some s => Some (n, k, s)
      | None =>
          match shortestAt x m e (S n) k with
          | Some s => Some (S n, k, s)
          | None => shortestFrom x m e n (S k) fuel'
          end
      end
  end.

(** [Number::toString] of a double [m * 2^e >= 10^21]: the shortest digit
    string that reads back as the same double, in exponent notation. *)
Definition toStringLarge (m : positive) (e : Z) : string :=
  let x := (Zpos m * 2 ^ e)%Z in
  match shortestFrom x m e (numDigits x) 1 17 with
  | Some (n, k, s) =>
      let d := decimal s in
      let mant := if Nat.eqb k 1 then d else substring 0 1 d ++ "." ++ substring 1 (k - 1) d in
      mant ++ "e+" ++ decimal (Z.of_nat (n - 1))
  | None => decimal x
  end.

(** [x.toFixed(f)] for [0 <= f <= 100]. *)
Definition toFixed (f : nat) (x : float) : string :=
  match Prim2SF x with
  | S754_nan => "NaN"
  | S754_infinity false => "Infinity"
  | S754_infinity true => "-Infinity"
  | S754_zero _ => fixedDigits f 0
  | S754_finite s m e =>
      (if s then "-" else "") ++
      (if (10 ^ 21 <=? Zpos m * 2 ^ e)%Z then toStringLarge m e
       else fixedDigits f (roundScaled f m e))
  end.

End Js.

(* ================================================================== *)
(** ** The HTTP collaborator                                           *)
(* ================================================================== *)

Module Http.
Import Js.

(** The body of a response: a JSON document, or bytes that
    [response.json()] rejects. *)
Inductive Body : Type :=
| JsonBody (v : value)
| InvalidBody.

(** What [await fetch(url)] can do: reject (network error), or resolve to a
    response with a status and a body. *)
Inductive FetchOutcome : Type :=
| Rejected
| Response (status : Z) (body : Body).

(** [response.ok]. *)
Definition ok (status : Z) : bool := (200 <=? status)%Z && (status <=? 299)%Z.

(** [await response.json()]. *)
Definition json (b : Body) : completion value :=
  match b with
  | JsonBody v => Normal v
  | InvalidBody => Throw SyntaxError
  end.

(** [console.error(label, e)]. *)
Record ConsoleEntry : Type := { ce_label : string; ce_error : exn }.

(** [const errorData = await response.json();
     throw new Error(errorData.error || `API request failed with status ${response.status}`)]. *)
Definition throwApiError {A} (status : Z) (body : Body) : completion A :=
  (errorData <- json body ;;
   err <- get errorData "error" ;;
   if truthy err then Throw (ApiError err) else Throw (ApiStatusError status))%js.

(** What the caller of an [async] function observes: the value the promise
    resolves to or the exception it rejects with, and what was written to the
    console meanwhile. *)
Definition Observed (A : Type) : Type := (completion A * list ConsoleEntry)%type.

(** [try { body } catch (error) { console.error(label, error); return fallback; }] *)
Definition tryCatchLog {A} (body : completion A) (label : string) (fallback : A)
    : Observed A :=
  match body with
  | Normal a => (Normal a, [])
  | Throw e => (Normal fallback, [ {| ce_label := label; ce_error := e |} ])
  end.

(** A request URL, with the query string kept as its list of parameters
    instead of their concatenation. *)
Inductive QueryValue : Type :=
| QCoordinates (lng lat : float)
| QNumber (x : float)
| QString (s : string)
| QList (xs : list string).

Definition Url : Type := (string * list (string * QueryValue))%type.

End Http.

(* ================================================================== *)
(** ** ConnectorTypeMapper ([src/app/api/routes/ev/route.ts], lines 59-88) *)
(* ================================================================== *)

Module ConnectorTypeMapper.

(** White space that [String.prototype.trim] strips, among the code units
    below 256. *)
Definition isWhiteSpace (c : ascii) : bool :=
  let n := nat_of_ascii c in
  (Nat.leb 9 n && Nat.leb n 13) || Nat.eqb n 32 || Nat.eqb n 160.

Fixpoint trimStart (s : string) : string :=
  match s with
  | String c rest => if isWhiteSpace c then trimStart rest else s
  | EmptyString => EmptyString
  end.

Fixpoint trimEnd (s : string) : string :=
  match s with
  | String c rest =>
      match trimEnd rest with
      | EmptyString => if isWhiteSpace c then EmptyString else String c EmptyString
      | rest' => String c rest'
      end
  | EmptyString => EmptyString
  end.

Definition trim (s : string) : string := trimEnd (trimStart s).

Definition validTypes : list string :=
  ["ccs_combo_type1"; "ccs_combo_type2"; "tesla"; "chademo"].

Definition includes (xs : list string) (x : string) : bool :=
  existsb (String.eqb x) xs.

(** The callback of [.map] at lines 63-79: the canonical connector type and
    the [console.warn] messages it emits. *)
Definition canonicalize (type : string) : string * list string :=
  let type := trim type in
  if String.eqb type "type1" || String.eqb type "j1772" then ("ccs_combo_type1", [])
  else if String.eqb type "type2" || String.eqb type "mennekes" then ("ccs_combo_type2", [])
  else if String.eqb type "ccs_type1" then ("ccs_combo_type1", [])
  else if String.eqb type "ccs_type2" then ("ccs_combo_type2", [])
  else if includes validTypes type then (type, [])
  else ("ccs_combo_type2",
        ["Unknown connector type: " ++ type ++ ", defaulting to ccs_combo_type2"]).

(** [.filter((value, index, self) => self.indexOf(value) === index)]. *)
Fixpoint removeDuplicates (seen xs : list string) : list string :=
  match xs with
  | [] => []
  | x :: rest =>
      if includes seen x then removeDuplicates seen rest
      else x :: removeDuplicates (x :: seen) rest
  end.


End ConnectorTypeMapper.

(* ================================================================== *)
(** ** RouteNormalizer ([src/services/mapbox/evRouting.ts])            *)
(* ================================================================== *)

Module EvRouting.
Import Js Http.

(** The domain shapes of [types.ts].  The provider's document is untyped
    ([any]), and the code copies its fields without checking them, so a copied
    field holds whatever value the document had there. *)

Record ChargingWaypoint : Type := {
  cw_type : string;
  cw_name : value;
  cw_chargeTime : value;
  cw_chargeTo : value;
  cw_chargeAtArrival : value;
  cw_plugType : value;
  cw_currentType : value;
  cw_powerKw : value;
  cw_stationId : value;
  cw_providerNames : value;
  cw_location : value }.

Record Maneuver : Type := {
  man_location : value;
  man_bearingBefore : value;
  man_bearingAfter : value;
  man_type : value;
  man_modifier : value;
  man_instruction : value }.

Record Intersection : Type := {
  isec_location : value;
  isec_bearings : value;
  isec_entry : value;
  isec_in : value;
  isec_out : value }.

Record RouteStep : Type := {
  step_distance : value;
  step_duration : value;
  step_geometry : value;
  step_name : value;
  step_mode : value;
  step_maneuver : Maneuver;
  step_intersections : list Intersection }.

Record Annotation : Type := {
  ann_distance : value;
  ann_duration : value;
  ann_speed : value;
  ann_stateOfCharge : value }.

Record RouteLeg : Type := {
  leg_distance : value;
  leg_duration : value;
  leg_summary : value;
  leg_steps : list RouteStep;
  leg_annotation : option Annotation }.

Record WaypointMetadata : Type := {
  md_type : value;
  md_name : value;
  md_chargeTime : value;
  md_chargeTo : value;
  md_chargeAtArrival : value;
  md_plugType : value;
  md_currentType : value;
  md_powerKw : value;
  md_stationId : value;
  md_providerNames : value }.

Record Waypoint : Type := {
  wp_name : value;
  wp_location : value;
  wp_metadata : option WaypointMetadata }.

Record EvRoute : Type := {
  route_distance : value;
  route_duration : value;
  route_geometry : value;
  route_legs : list RouteLeg;
  route_waypoints : list Waypoint;
  route_chargingWaypoints : list ChargingWaypoint }.

Record EvVehicleParams : Type := {
  vehicleType : option string;
  range : option float;
  initialCharge : option float;
  maxCharge : option float;
  minCharge : option float;
  connectorTypes : option (list string) }.

(** [vehicleParams = {}]. *)
Definition noVehicleParams : EvVehicleParams :=
  {| vehicleType := None; range := None; initialCharge := None;
     maxCharge := None; minCharge := None; connectorTypes := None |}.

(** The request of lines 35-56. *)
Definition buildUrl (startLat startLng endLat endLng : float)
    (vehicleParams : EvVehicleParams) : Url :=
  let url := [("start", QCoordinates startLng startLat);
              ("end", QCoordinates endLng endLat)] in
  let url :=
    match vehicleType vehicleParams with
    | Some t => if truthy (VStr t) then (url ++ [("vehicle", QString t)])%list else url
    | None => url
    end in
  let url :=
    match range vehicleParams with
    | Some r => if truthy (VNum r) then (url ++ [("range", QNumber r)])%list else url
    | None => url
    end in
  let url :=
    match connectorTypes vehicleParams with
    | Some (t :: ts) => (url ++ [("connector_types", QList (map (fun type => type) (t :: ts)))])%list
    | _ => (url ++ [("connector_types", QList ["ccs_combo_type2"; "ccs_combo_type1"])])%list
    end in
  ("/api/routes/ev", url).

Local Open Scope js_scope.

(** The callback of [waypointsSource.forEach] (lines 83-101): the entry it
    pushes on [chargingWaypoints], if any. *)
Definition chargingWaypointOf (waypoint : value) : completion (option ChargingWaypoint) :=
  metadata <- get waypoint "metadata" ;;
  if truthy metadata then
    type <- get metadata "type" ;;
    if strictEqStr type "charging-station" then
      name <- get metadata "name" ;;
      charge_time <- get metadata "charge_time" ;;
      charge_to <- get metadata "charge_to" ;;
      charge_at_arrival <- get metadata "charge_at_arrival" ;;
      plug_type <- get metadata "plug_type" ;;
      current_type <- get metadata "current_type" ;;
      power_kw <- get metadata "power_kw" ;;
      station_id <- get metadata "station_id" ;;
      provider_names <- get metadata "provider_names" ;;
      location <- get waypoint "location" ;;
      Normal (Some {| cw_type := "charging-station";
                      cw_name := name;
                      cw_chargeTime := charge_time;
                      cw_chargeTo := charge_to;
                      cw_chargeAtArrival := charge_at_arrival;
                      cw_plugType := plug_type;
                      cw_currentType := or_else current_type (VStr "");
                      cw_powerKw := power_kw;
                      cw_stationId := station_id;
                      cw_providerNames := provider_names;
                      cw_location := location |})
    else Normal None
  else Normal None.

(** [forEach] with a callback that pushes at most one entry per element. *)
Fixpoint collect {A} (f : value -> completion (option A)) (xs : list value)
    : completion (list A) :=
  match xs with
  | [] => Normal []
  | x :: rest =>
      o <- f x ;;
      ys <- collect f rest ;;
      Normal (match o with Some y => y :: ys | None => ys end)
  end.

Definition intersectionOf (intersection : value) : completion Intersection :=
  location <- get intersection "location" ;;
  bearings <- get intersection "bearings" ;;
  entry <- get intersection "entry" ;;
  i <- get intersection "in" ;;
  o <- get intersection "out" ;;
  Normal {| isec_location := location; isec_bearings := bearings;
            isec_entry := entry; isec_in := i; isec_out := o |}.

Definition stepOf (step : value) : completion RouteStep :=
  distance <- get step "distance" ;;
  duration <- get step "duration" ;;
  geometry <- get step "geometry" ;;
  name <- get step "name" ;;
  mode <- get step "mode" ;;
  maneuver <- get step "maneuver" ;;
  location <- get maneuver "location" ;;
  bearing_before <- get maneuver "bearing_before" ;;
  bearing_after <- get maneuver "bearing_after" ;;
  type <- get maneuver "type" ;;
  modifier <- get maneuver "modifier" ;;
  instruction <- get maneuver "instruction" ;;
  intersections <- get step "intersections" ;;
  intersections <- asArray intersections ;;
  intersections <- mapM intersectionOf intersections ;;
  Normal {| step_distance := distance; step_duration := duration;
            step_geometry := geometry; step_name := name; step_mode := mode;
            step_maneuver :=
              {| man_location := location; man_bearingBefore := bearing_before;
                 man_bearingAfter := bearing_after; man_type := type;
                 man_modifier := modifier; man_instruction := instruction |};
            step_intersections := intersections |}.

Definition annotationOf (annotation : value) : completion (option Annotation) :=
  if truthy annotation then
    distance <- get annotation "distance" ;;
    duration <- get annotation "duration" ;;
    speed <- get annotation "speed" ;;
    state_of_charge <- get annotation "state_of_charge" ;;
    Normal (Some {| ann_distance := distance; ann_duration := duration;
                    ann_speed := speed; ann_stateOfCharge := state_of_charge |})
  else Normal None.

Definition legOf (leg : value) : completion RouteLeg :=
  distance <- get leg "distance" ;;
  duration <- get leg "duration" ;;
  summary <- get leg "summary" ;;
  steps <- get leg "steps" ;;
  steps <- asArray steps ;;
  steps <- mapM stepOf steps ;;
  annotation <- get leg "annotation" ;;
  annotation <- annotationOf annotation ;;
  Normal {| leg_distance := distance; leg_duration := duration;
            leg_summary := or_else summary (VStr "");
            leg_steps := steps; leg_annotation := annotation |}.

Definition metadataOf (metadata : value) : completion (option WaypointMetadata) :=
  if truthy metadata then
    type <- get metadata "type" ;;
    name <- get metadata "name" ;;
    charge_time <- get metadata "charge_time" ;;
    charge_to <- get metadata "charge_to" ;;
    charge_at_arrival <- get metadata "charge_at_arrival" ;;
    plug_type <- get metadata "plug_type" ;;
    current_type <- get metadata "current_type" ;;
    power_kw <- get metadata "power_kw" ;;
    station_id <- get metadata "station_id" ;;
    provider_names <- get metadata "provider_names" ;;
    Normal (Some {| md_type := type; md_name := name;
                    md_chargeTime := charge_time; md_chargeTo := charge_to;
                    md_chargeAtArrival := charge_at_arrival;
                    md_plugType := plug_type;
                    md_currentType := or_else current_type (VStr "");
                    md_powerKw := power_kw; md_stationId := station_id;
                    md_providerNames := provider_names |})
  else Normal None.

Definition waypointOf (waypoint : value) : completion Waypoint :=
  name <- get waypoint "name" ;;
  location <- get waypoint "location" ;;
  metadata <- get waypoint "metadata" ;;
  metadata <- metadataOf metadata ;;
  Normal {| wp_name := name; wp_location := location; wp_metadata := metadata |}.

(** [data.waypoints || route.waypoints || []] (line 77). *)
Definition waypointsSourceOf (data route : value) : completion value :=
  dw <- get data "waypoints" ;;
  if truthy dw then Normal dw
  else
    rw <- get route "waypoints" ;;
    Normal (or_else rw (VArr [])).

(** Lines 67-160: what the body of the [try] does with the parsed document. *)
Definition normalize (data : value) : completion (option EvRoute) :=
  routes <- get data "routes" ;;
  if negb (truthy routes) then Normal None
  else
    empty <- lengthIsZero routes ;;
    if empty then Normal None
    else
      route <- get0 routes ;;
      waypointsSource <- waypointsSourceOf data route ;;
      waypointsList <- asArray waypointsSource ;;
      chargingWaypoints <- collect chargingWaypointOf waypointsList ;;
      distance <- get route "distance" ;;
      duration <- get route "duration" ;;
      geometry <- get route "geometry" ;;
      legs <- get route "legs" ;;
      legs <- asArray legs ;;
      legs <- mapM legOf legs ;;
      waypoints <- mapM waypointOf waypointsList ;;
      Normal (Some {| route_distance := distance;
                      route_duration := duration;
                      route_geometry := geometry;
                      route_legs := legs;
                      route_waypoints := waypoints;
                      route_chargingWaypoints := chargingWaypoints |}).

(** Lines 58-160: the body of the [try], given what [fetch] did. *)
Definition tryBody (outcome : FetchOutcome) : completion (option EvRoute) :=
  match outcome with
  | Rejected => Throw NetworkError
  | Response status body =>
      if negb (ok status) then throwApiError status body
      else
        data <- json body ;;
        normalize data
  end.

(** [calculateEvRoute], with the [fetch] collaborator passed in. *)
Definition calculateEvRoute (fetch : Url -> FetchOutcome)
    (startLat startLng endLat endLng : float) (vehicleParams : EvVehicleParams)
    : Observed (option EvRoute) :=
  tryCatchLog
    (let url := buildUrl startLat startLng endLat endLng vehicleParams in
     tryBody (fetch url))
    "Error calculating EV route:" None.

(** [total + waypoint.chargeTime] for the declared type [chargeTime: number];
    on a value of another type JavaScript would coerce, which is outside this
    model ([None]). *)
Definition addChargeTime (total : option float) (waypoint : ChargingWaypoint)
    : option float :=
  match total, cw_chargeTime waypoint with
  | Some t, VNum x => Some (t + x)%float
  | _, _ => None
  end.

(** [route.chargingWaypoints.reduce((total, waypoint) => total + waypoint.chargeTime, 0)]. *)
Definition calculateTotalChargingTime (route : EvRoute) : option float :=
  fold_left addChargeTime (route_chargingWaypoints route) (Some 0%float).

End EvRouting.

(* ================================================================== *)
(** ** The station query ([src/services/mapbox/chargingStations.ts])   *)
(* ================================================================== *)

Module ChargingStations.
Import Js Http.

(** [interface ChargingStation] of [types.ts]. *)
Record ChargingStation : Type := {
  id : string;
  lat : float;
  lng : float;
  name : string;
  chargerType : list string;
  powerLevel : float;
  network : string;
  available : bool;
  address : string;
  city : option string;
  state : option string;
  postalCode : option string;
  country : option string;
  distance : option float }.

Record Options : Type := {
  limit : option float;
  connectorTypes : option (list string);
  operators : option (list string);
  excludeOperators : option (list string);
  minChargingPower : option float;
  maxChargingPower : option float;
  availability : option string }.

Definition addList (key : string) (xs : option (list string))
    (url : list (string * QueryValue)) : list (string * QueryValue) :=
  match xs with
  | Some (x :: rest) => (url ++ [(key, QList (x :: rest))])%list
  | _ => url
  end.

Definition addDefined (key : string) (x : option float)
    (url : list (string * QueryValue)) : list (string * QueryValue) :=
  match x with
  | Some v => (url ++ [(key, QNumber v)])%list
  | None => url
  end.

(** Lines 41-66. *)
Definition buildUrl (latitude longitude distance : float) (options : option Options) : Url :=
  let url := [("latitude", QNumber latitude); ("longitude", QNumber longitude);
              ("distance", QNumber distance)] in
  let url :=
    match options with
    | Some options =>
        let url :=
          match limit options with
          | Some l => if truthy (VNum l) then (url ++ [("limit", QNumber l)])%list else url
          | None => url
          end in
        let url := addList "connector_types" (connectorTypes options) url in
        let url := addList "operators" (operators options) url in
        let url := addList "exclude_operators" (excludeOperators options) url in
        let url := addDefined "min_charging_power" (minChargingPower options) url in
        let url := addDefined "max_charging_power" (maxChargingPower options) url in
        match availability options with
        | Some a => if truthy (VStr a) then (url ++ [("availability", QString a)])%list else url
        | None => url
        end
    | None => url
    end in
  ("/api/charging-stations", url).

(** What [await response.json()] of a 2xx response is, seen through the
    unchecked annotation [const stations: ChargingStation[]]: an array of
    records of the declared type, or a document that is no such array and on
    which the caller's [fetchedStations.forEach(...)] loop throws (for
    instance [{}], or [[null]]). *)
Inductive Fetched : Type :=
| FetchedStations (stations : list ChargingStation)
| FetchedOther.

Inductive StationsBody : Type :=
| NotJson
| Json (document : Fetched).

(** What [await fetch(url)] can do: reject, resolve to a response that is not
    [ok] (with its status and body), or resolve to an [ok] response. *)
Inductive FetchOutcome : Type :=
| Rejected
| Failure (status : Z) (errorBody : Body)
| Success (body : StationsBody).

(** Lines 68-81: [fetchChargingStations] from the point where [fetch] has
    settled. *)
Definition fetchChargingStations (outcome : FetchOutcome) : Observed Fetched :=
  tryCatchLog
    (match outcome with
     | Rejected => Throw NetworkError
     | Failure status errorBody => throwApiError status errorBody
     | Success NotJson => Throw SyntaxError
     | Success (Json stations) => Normal stations
     end)
    "Error fetching charging stations:" (FetchedStations []).

End ChargingStations.

(* ================================================================== *)
(** ** The station cache and its coordinator ([src/components/MapWrapper.tsx]) *)
(* ================================================================== *)

Module MapWrapper.
Import Js Http ChargingStations.

(** *** The cache object

    [{[key: string]: ChargingStation}]: an object used as a map.  Its keys
    contain a comma, so none is an array index or a prototype property, and
    the object enumerates them in insertion order. *)
Definition Cache : Type := list (string * ChargingStation).

(** [!!cache[key]] (a station record is an object, hence truthy). *)
Fixpoint has (cache : Cache) (key : string) : bool :=
  match cache with
  | [] => false
  | (k, _) :: rest => String.eqb key k || has rest key
  end.

Fixpoint lookupStation (cache : Cache) (key : string) : option ChargingStation :=
  match cache with
  | [] => None
  | (k, v) :: rest => if String.eqb key k then Some v else lookupStation rest key
  end.

(** [cache[key] = station]: an existing key keeps its place, a new key goes
    last. *)
Fixpoint assign (cache : Cache) (key : string) (station : ChargingStation) : Cache :=
  match cache with
  | [] => [(key, station)]
  | (k, v) :: rest =>
      if String.eqb key k then (k, station) :: rest
      else (k, v) :: assign rest key station
  end.

(** [{...prevCache, ...newStations}]. *)
Definition spread (prevCache newStations : Cache) : Cache :=
  fold_left (fun acc kv => assign acc (fst kv) (snd kv)) newStations prevCache.

(** [Object.values(cache)]. *)
Definition values (cache : Cache) : list ChargingStation := map snd cache.

Definition keys (cache : Cache) : list string := map fst cache.

(** Lines 100-102. *)
Definition cacheKey (station : ChargingStation) : string :=
  let locationHash := toFixed 6 (lat station) ++ "," ++ toFixed 6 (lng station) in
  id station ++ "_" ++ locationHash.

(** Lines 95-109: the loop over the fetched stations, reading the
    [stationsCache] that the callback closed over. *)
Definition collectNew (stationsCache : Cache) (fetchedStations : list ChargingStation)
    : Cache * bool :=
  fold_left
    (fun (acc : Cache * bool) station =>
       let (newStations, cacheUpdated) := acc in
       if negb (has stationsCache (cacheKey station))
       then (assign newStations (cacheKey station) station, true)
       else (newStations, cacheUpdated))
    fetchedStations ([], false).

(** Lines 95-117: the cache after [setStationsCache] has run its updater on
    [prevCache], for a callback that closed over [stationsCache]. *)
Definition mergeInto (stationsCache prevCache : Cache)
    (fetchedStations : list ChargingStation) : Cache :=
  let (newStations, cacheUpdated) := collectNew stationsCache fetchedStations in
  if cacheUpdated then spread prevCache newStations else prevCache.

(** The merge when no other update came between the render that created the
    callback and its response: the closed-over cache is the current one. *)
Definition merge (cache : Cache) (stationBatch : list ChargingStation) : Cache :=
  mergeInto cache cache stationBatch.

(** *** The component *)

Record Props : Type := {
  centerLat : float;
  centerLng : float;
  zoom : float;
  searchRadius : float;
  useRealData : bool }.

(** [center = 38.9072, -77.0369], [zoom = 12], [searchRadius = 50],
    [useRealData = true] (lines 36-40). *)
Definition defaultProps : Props :=
  {| centerLat := 38.9072; centerLng := -77.0369;
     zoom := 12; searchRadius := 50; useRealData := true |}.

Inductive TimerAction : Type :=
| ShowLoading
    (* () => setIsLoading(true), line 128 *)
| DebouncedFetch (lat lng radius : float) (stationsCache : Cache) (loadingTimer : nat).
    (* the callback of lines 131-179, with the variables it closed over *)

Record Timer : Type := {
  timer_id : nat;
  timer_due : Z;
  timer_action : TimerAction }.

(** A call of [fetchChargingStations] that has not settled yet, with the
    [stationsCache] its continuation closed over. *)
Record Pending : Type := {
  req_id : nat;
  req_url : Url;
  req_closure : Cache }.

(** The component instance: its React state, its ref, and the timers and
    requests it has started.  [stations] is not stored: the effect of lines
    48-51 keeps it equal to [values stationsCache]. *)
Record State : Type := {
  now : Z;                              (* milliseconds *)
  mounted : bool;
  stationsCache : Cache;
  isLoading : bool;
  error : option string;
  mapCenter : float * float;
  mapZoom : float;
  debounceTimerRef : option nat;
  timers : list Timer;                  (* set and neither fired nor cleared *)
  nextTimer : nat;
  inFlight : list Pending;
  requests : list Url;                  (* every request sent, oldest first *)
  console : list ConsoleEntry }.

Definition stations (s : State) : list ChargingStation := values (stationsCache s).

Definition withNow (t : Z) (s : State) : State :=
  {| now := t; mounted := mounted s; stationsCache := stationsCache s;
     isLoading := isLoading s; error := error s; mapCenter := mapCenter s;
     mapZoom := mapZoom s; debounceTimerRef := debounceTimerRef s;
     timers := timers s; nextTimer := nextTimer s; inFlight := inFlight s;
     requests := requests s; console := console s |}.

Definition withMounted (b : bool) (s : State) : State :=
  {| now := now s; mounted := b; stationsCache := stationsCache s;
     isLoading := isLoading s; error := error s; mapCenter := mapCenter s;
     mapZoom := mapZoom s; debounceTimerRef := debounceTimerRef s;
     timers := timers s; nextTimer := nextTimer s; inFlight := inFlight s;
     requests := requests s; console := console s |}.

Definition withTimers (ts : list Timer) (next : nat) (s : State) : State :=
  {| now := now s; mounted := mounted s; stationsCache := stationsCache s;
     isLoading := isLoading s; error := error s; mapCenter := mapCenter s;
     mapZoom := mapZoom s; debounceTimerRef := debounceTimerRef s;
     timers := ts; nextTimer := next; inFlight := inFlight s;
     requests := requests s; console := console s |}.

Definition withRef (r : option nat) (s : State) : State :=
  {| now := now s; mounted := mounted s; stationsCache := stationsCache s;
     isLoading := isLoading s; error := error s; mapCenter := mapCenter s;
     mapZoom := mapZoom s; debounceTimerRef := r;
     timers := timers s; nextTimer := nextTimer s; inFlight := inFlight s;
     requests := requests s; console := console s |}.

Definition withRequests (fl : list Pending) (rs : list Url) (s : State) : State :=
  {| now := now s; mounted := mounted s; stationsCache := stationsCache s;
     isLoading := isLoading s; error := error s; mapCenter := mapCenter s;
     mapZoom := mapZoom s; debounceTimerRef := debounceTimerRef s;
     timers := timers s; nextTimer := nextTimer s; inFlight := fl;
     requests := rs; console := console s |}.

Definition consoleError (entries : list ConsoleEntry) (s : State) : State :=
  {| now := now s; mounted := mounted s; stationsCache := stationsCache s;
     isLoading := isLoading s; error := error s; mapCenter := mapCenter s;
     mapZoom := mapZoom s; debounceTimerRef := debounceTimerRef s;
     timers := timers s; nextTimer := nextTimer s; inFlight := inFlight s;
     requests := requests s; console := (console s ++ entries)%list |}.

(** The state setters.  React drops an update of a component that is no
    longer mounted. *)
Definition setStationsCache (updater : Cache -> Cache) (s : State) : State :=
  if mounted s then
    {| now := now s; mounted := mounted s; stationsCache := updater (stationsCache s);
       isLoading := isLoading s; error := error s; mapCenter := mapCenter s;
       mapZoom := mapZoom s; debounceTimerRef := debounceTimerRef s;
       timers := timers s; nextTimer := nextTimer s; inFlight := inFlight s;
       requests := requests s; console := console s |}
  else s.

Definition setIsLoading (b : bool) (s : State) : State :=
  if mounted s then
    {| now := now s; mounted := mounted s; stationsCache := stationsCache s;
       isLoading := b; error := error s; mapCenter := mapCenter s;
       mapZoom := mapZoom s; debounceTimerRef := debounceTimerRef s;
       timers := timers s; nextTimer := nextTimer s; inFlight := inFlight s;
       requests := requests s; console := console s |}
  else s.

Definition setError (e : option string) (s : State) : State :=
  if mounted s then
    {| now := now s; mounted := mounted s; stationsCache := stationsCache s;
       isLoading := isLoading s; error := e; mapCenter := mapCenter s;
       mapZoom := mapZoom s; debounceTimerRef := debounceTimerRef s;
       timers := timers s; nextTimer := nextTimer s; inFlight := inFlight s;
       requests := requests s; console := console s |}
  else s.

Definition setMapView (center : float * float) (z : float) (s : State) : State :=
  if mounted s then
    {| now := now s; mounted := mounted s; stationsCache := stationsCache s;
       isLoading := isLoading s; error := error s; mapCenter := center;
       mapZoom := z; debounceTimerRef := debounceTimerRef s;
       timers := timers s; nextTimer := nextTimer s; inFlight := inFlight s;
       requests := requests s; console := console s |}
  else s.

(** [setTimeout(action, delay)]: the new timer's id and the state with the
    timer set. *)
Definition setTimeout (action : TimerAction) (delay : Z) (s : State) : nat * State :=
  let t := {| timer_id := nextTimer s; timer_due := (now s + delay)%Z;
              timer_action := action |} in
  (nextTimer s, withTimers (timers s ++ [t])%list (S (nextTimer s)) s).

Definition dropTimer (i : nat) (ts : list Timer) : list Timer :=
  filter (fun t => negb (Nat.eqb (timer_id t) i)) ts.

(** [clearTimeout(id)]; clearing a timer that has fired or was cleared does
    nothing. *)
Definition clearTimeout (i : nat) (s : State) : State :=
  withTimers (dropTimer i (timers s)) (nextTimer s) s.

(** [if (debounceTimerRef.current) clearTimeout(debounceTimerRef.current)]. *)
Definition clearDebounceTimer (s : State) : State :=
  match debounceTimerRef s with
  | Some i => clearTimeout i s
  | None => s
  end.

Definition stationOptions : Options :=
  {| limit := Some 100%float; connectorTypes := None; operators := None;
     excludeOperators := None; minChargingPower := None;
     maxChargingPower := None; availability := Some "AVAILABLE" |}.

(** [fetchChargingStations(lat, lng, radius, {limit: 100, availability: 'AVAILABLE'})]
    up to its [await fetch(url)]: the request leaves, and the continuation
    waits with the cache it closed over. *)
Definition sendRequest (lat lng radius : float) (closure : Cache) (s : State) : State :=
  let url := buildUrl lat lng radius (Some stationOptions) in
  let p := {| req_id := List.length (requests s); req_url := url; req_closure := closure |} in
  withRequests (inFlight s ++ [p])%list (requests s ++ [url])%list s.

(** [fetchStations] (lines 70-181), called from a render whose
    [stationsCache] is that of [s], up to its first [await]. *)
Definition fetchStations (props : Props) (lat lng radius : float) (immediate : bool)
    (s : State) : State :=
  if negb (useRealData props) then s
  else
    let closure := stationsCache s in
    let s := clearDebounceTimer s in
    if immediate then
      let s := setIsLoading true s in
      let s := setError None s in
      sendRequest lat lng radius closure s
    else
      let (loadingTimer, s) := setTimeout ShowLoading 300 s in
      let (debounceTimer, s) :=
        setTimeout (DebouncedFetch lat lng radius closure loadingTimer) 800 s in
      withRef (Some debounceTimer) s.

(** The effect of lines 184-188.  It depends on [fetchStations], which
    [useCallback] renews whenever [stationsCache] changes, so it runs at
    mount and again after every render that follows a cache update. *)
Definition mountEffect (props : Props) (s : State) : State :=
  if useRealData props
  then fetchStations props (centerLat props) (centerLng props) (searchRadius props) true s
  else s.

(** The component after its first render and effects. *)
Definition init (props : Props) : State :=
  mountEffect props
    {| now := 0; mounted := true; stationsCache := []; isLoading := false;
       error := None; mapCenter := (centerLat props, centerLng props);
       mapZoom := zoom props; debounceTimerRef := None; timers := [];
       nextTimer := 1; inFlight := []; requests := []; console := [] |}.

(** [handleMapMove] (lines 241-252); [newCenter] is [(lat, lng)]. *)
Definition handleMapMove (props : Props) (newCenter : float * float) (newZoom : float)
    (s : State) : State :=
  let s := setMapView newCenter newZoom s in
  if (12 <=? newZoom)%float
  then fetchStations props (fst newCenter) (snd newCenter) (searchRadius props) false s
  else s.

Definition errorMessage : string :=
  "Failed to fetch charging stations. Please try again later.".

(** The [try] block of lines 83-117 (and 136-170) after the [await]. *)
Definition tryBlock (closure : Cache) (fetched : completion Fetched)
    : completion (Cache * bool) :=
  (fetchedStations <- fetched ;;
   match fetchedStations with
   | FetchedStations l => Normal (collectNew closure l)
   | FetchedOther => Throw TypeError
   end)%js.

(** The continuation of [fetchStations] once the request of [p] has settled:
    the rest of [try], [catch], [finally], and then the render and effects
    that a cache update causes. *)
Definition settle (props : Props) (p : Pending) (outcome : FetchOutcome) (s : State)
    : State :=
  let (fetched, logged) := fetchChargingStations outcome in
  let s := consoleError logged s in
  match tryBlock (req_closure p) fetched with
  | Normal (newStations, true) =>
      let wasMounted := mounted s in
      let s := setStationsCache (fun prevCache => spread prevCache newStations) s in
      let s := setIsLoading false s in
      if wasMounted then mountEffect props s else s
  | Normal (_, false) =>
      setIsLoading false s
  | Throw err =>
      let s := consoleError [ {| ce_label := "Error fetching charging stations:";
                                 ce_error := err |} ] s in
      let s := setError (Some errorMessage) s in
      setIsLoading false s
  end.

(** A timer fires. *)
Definition fire (action : TimerAction) (s : State) : State :=
  match action with
  | ShowLoading => setIsLoading true s
  | DebouncedFetch lat lng radius closure loadingTimer =>
      let s := clearTimeout loadingTimer s in
      let s := setIsLoading true s in
      let s := setError None s in
      sendRequest lat lng radius closure s
  end.

(** The cleanup of lines 191-197, and the end of the component. *)
Definition unmount (s : State) : State :=
  withMounted false (clearDebounceTimer s).

Definition findTimer (i : nat) (ts : list Timer) : option Timer :=
  find (fun t => Nat.eqb (timer_id t) i) ts.

Definition findPending (i : nat) (ps : list Pending) : option Pending :=
  find (fun p => Nat.eqb (req_id p) i) ps.

Definition dropPending (i : nat) (ps : list Pending) : list Pending :=
  filter (fun p => negb (Nat.eqb (req_id p) i)) ps.

(** What can happen to the component. *)
Inductive Event : Type :=
| MapMove (newCenter : float * float) (newZoom : float)   (* the map reports a move *)
| Elapse (ms : Z)                                         (* time passes *)
| TimerFires (i : nat)                                    (* a due timer runs *)
| FetchSettles (i : nat) (outcome : FetchOutcome)         (* a request settles *)
| Unmount.

(** One event; [None] when the event cannot happen in [s] (a timer that is
    not set or not due yet, a request that is not pending, a move of an
    unmounted map, time running backwards). *)
Definition step (props : Props) (s : State) (e : Event) : option State :=
  match e with
  | MapMove newCenter newZoom =>
      if mounted s then Some (handleMapMove props newCenter newZoom s) else None
  | Elapse ms =>
      if (0 <=? ms)%Z then Some (withNow (now s + ms)%Z s) else None
  | TimerFires i =>
      match findTimer i (timers s) with
      | Some t =>
          if (timer_due t <=? now s)%Z
          then Some (fire (timer_action t) (clearTimeout i s))
          else None
      | None => None
      end
  | FetchSettles i outcome =>
      match findPending i (inFlight s) with
      | Some p =>
          Some (settle props p outcome
                  (withRequests (dropPending i (inFlight s)) (requests s) s))
      | None => None
      end
  | Unmount =>
      if mounted s then Some (unmount s) else None
  end.

Fixpoint run (props : Props) (s : State) (events : list Event) : option State :=
  match events with
  | [] => Some s
  | e :: rest =>
      match step props s e with
      | Some s' => run props s' rest
      | None => None
      end
  end.

(** The debounce timers that are set. *)
Definition isDebounce (t : Timer) : bool :=
  match timer_action t with
  | DebouncedFetch _ _ _ _ _ => true
  | ShowLoading => false
  end.

Definition debounceTimers (s : State) : list Timer := filter isDebounce (timers s).

End MapWrapper.

(* ================================================================== *)
(** ** Notions used to state the properties                            *)
(* ================================================================== *)

Module RouteSpec.
Import Js Http EvRouting.

(** A waypoint of the provider's document is marked as a charging stop. *)
Definition marksChargingStop (waypoint : value) : bool :=
  match get waypoint "metadata" with
  | Normal metadata =>
      truthy metadata &&
      match get metadata "type" with
      | Normal type => strictEqStr type "charging-station"
      | Throw _ => false
      end
  | Throw _ => false
  end.

(** A waypoint of the normalized route is marked as a charging stop, and the
    entry of [chargingWaypoints] that belongs to it. *)
Definition chargingStop (w : Waypoint) : option ChargingWaypoint :=
  match wp_metadata w with
  | Some md =>
      if strictEqStr (md_type md) "charging-station"
      then Some {| cw_type := "charging-station";
                   cw_name := md_name md;
                   cw_chargeTime := md_chargeTime md;
                   cw_chargeTo := md_chargeTo md;
                   cw_chargeAtArrival := md_chargeAtArrival md;
                   cw_plugType := md_plugType md;
                   cw_currentType := md_currentType md;
                   cw_powerKw := md_powerKw md;
                   cw_stationId := md_stationId md;
                   cw_providerNames := md_providerNames md;
                   cw_location := wp_location w |}
      else None
  | None => None
  end.

(** The filtered projection: the charging stops of a list of waypoints, in
    their order. *)
Fixpoint chargingStops (ws : list Waypoint) : list ChargingWaypoint :=
  match ws with
  | [] => []
  | w :: rest =>
      match chargingStop w with
      | Some cw => cw :: chargingStops rest
      | None => chargingStops rest
      end
  end.

(** A charging entry holds the provider's [plug_type] and [charge_time] as
    they are. *)
Definition copiesChargeFields (waypoint : value) (cw : ChargingWaypoint) : Prop :=
  exists metadata,
    get waypoint "metadata" = Normal metadata /\
    get metadata "plug_type" = Normal (cw_plugType cw) /\
    get metadata "charge_time" = Normal (cw_chargeTime cw).

(** A route object the transformation cannot read: no [legs], a leg without
    [steps], or a step without [maneuver]. *)
Inductive Malformed (route : value) : Prop :=
| MissingLegs :
    get route "legs" = Normal VUndefined -> Malformed route
| MissingSteps (legs : list value) (leg : value) :
    get route "legs" = Normal (VArr legs) -> In leg legs ->
    get leg "steps" = Normal VUndefined -> Malformed route
| MissingManeuver (legs steps : list value) (leg step : value) :
    get route "legs" = Normal (VArr legs) -> In leg legs ->
    get leg "steps" = Normal (VArr steps) -> In step steps ->
    get step "maneuver" = Normal VUndefined -> Malformed route.

(** The scenario of the specification: one route, one waypoint marked as a
    charging stop with [plug_type: "type2"] and [charge_time: 1800]. *)
Definition scenarioWaypoint : value :=
  VObj [("name", VStr "Charger");
        ("location", VArr [VNum (-74.006); VNum 40.7128]);
        ("metadata", VObj [("type", VStr "charging-station");
                           ("name", VStr "Charger");
                           ("charge_time", VNum 1800);
                           ("charge_to", VNum 56000);
                           ("charge_at_arrival", VNum 10500);
                           ("plug_type", VStr "type2");
                           ("current_type", VStr "dc");
                           ("power_kw", VNum 150);
                           ("station_id", VStr "station-1")])].

Definition scenarioResponse : value :=
  VObj [("routes", VArr [VObj [("distance", VNum 1000);
                               ("duration", VNum 60);
                               ("geometry", VStr "");
                               ("legs", VArr [])]]);
        ("waypoints", VArr [scenarioWaypoint])].

(** A provider that answers every request with the given document. *)
Definition answering (data : value) : Url -> FetchOutcome :=
  fun _ => Response 200 (JsonBody data).

(** A provider that reports zero routes. *)
Definition noRoutes : value := VObj [("routes", VArr [])].

(** A route object without [legs], and a document that holds it. *)
Definition routeWithoutLegs : value :=
  VObj [("distance", VNum 1000); ("duration", VNum 60); ("geometry", VStr "")].

Definition malformedResponse : value := VObj [("routes", VArr [routeWithoutLegs])].

End RouteSpec.


Module CoordinatorSpec.
Import Js Http ChargingStations MapWrapper.

(** The invariant of the timers: ids are unique and below the next id, and
    a debounce timer that is set is the one the ref points to. *)
Definition wf (s : State) : Prop :=
  NoDup (map timer_id (timers s)) /\
  (forall t, In t (timers s) -> timer_id t < nextTimer s) /\
  (forall t, In t (timers s) -> isDebounce t = true ->
             debounceTimerRef s = Some (timer_id t)).

(** Two states with the same timers, next id and ref. *)
Definition sameTimers (s s' : State) : Prop :=
  timers s' = timers s /\ nextTimer s' = nextTimer s /\
  debounceTimerRef s' = debounceTimerRef s.





(** The two timers that the debounced path of [fetchStations] sets in [s]. *)
Definition loadingTimerOf (s : State) : Timer :=
  {| timer_id := nextTimer s; timer_due := (now s + 300)%Z; timer_action := ShowLoading |}.

Definition debounceTimerOf (lat lng radius : float) (s : State) : Timer :=
  {| timer_id := S (nextTimer s); timer_due := (now s + 800)%Z;
     timer_action := DebouncedFetch lat lng radius (stationsCache s) (nextTimer s) |}.

(** The station of the specification's scenario, and the same station as a
    later response reports it. *)
Definition stationA : ChargingStation :=
  {| id := "A"; lat := 40.7128; lng := -74.006; name := "Station A";
     chargerType := ["IEC_62196_T2_COMBO"]; powerLevel := 150; network := "Net";
     available := true; address := "1 Main St"; city := None; state := None;
     postalCode := None; country := None; distance := Some 1%float |}.

Definition stationA' : ChargingStation :=
  {| id := "A"; lat := 40.7128; lng := -74.006; name := "Station A";
     chargerType := ["IEC_62196_T2_COMBO"]; powerLevel := 150; network := "Net";
     available := false; address := "1 Main St"; city := None; state := None;
     postalCode := None; country := None; distance := Some 5%float |}.

Definition keyA : string := "A_40.712800,-74.006000".

(** The map is panned at zoom 15 while the mount request (request 0) is
    pending; 800 ms later the debounce timer (timer 2) sends request 1. *)
Definition panThenFire : list Event :=
  [MapMove (40, -74)%float 15; Elapse 800; TimerFires 2].

(** ... then the mount request answers with station A ... *)
Definition overlap : list Event :=
  (panThenFire ++ [FetchSettles 0 (Success (Json (FetchedStations [stationA])))])%list.


(** A pan at zoom 15, a pan out to zoom 10 after 200 ms, and the timer of
    the first pan 800 ms after it was set. *)
Definition panOut : list Event :=
  [MapMove (40, -74)%float 15; Elapse 200; MapMove (40.5, -74.5)%float 10;
   Elapse 600; TimerFires 2].


(** The ways the station query can fail. *)
Definition collaboratorErrors : list FetchOutcome :=
  [Rejected;
   Failure 500 (JsonBody (VObj [("error", VStr "Mapbox API error: 500 Internal Server Error")]));
   Failure 502 InvalidBody;
   Success NotJson].

End CoordinatorSpec.

(* ================================================================== *)
(** ** [parseFloat]                                                    *)
(* ================================================================== *)

Module JsGlobals.
Import Js.

Definition isDigit (c : ascii) : bool :=
  let n := nat_of_ascii c in Nat.leb 48 n && Nat.leb n 57.

Definition digitValue (c : ascii) : Z := (Z.of_nat (nat_of_ascii c) - 48)%Z.

(** The longest run of decimal digits at the start of [s], read after
    [count] digits of value [acc]: the number of digits, their value, and
    what follows them. *)
Fixpoint digits (s : string) (count : nat) (acc : Z) : nat * Z * string :=
  match s with
  | String c rest =>
      if isDigit c then digits rest (S count) (10 * acc + digitValue c)%Z
      else (count, acc, s)
  | EmptyString => (count, acc, s)
  end.

Definition bitLength (n : Z) : Z := (Z.log2 n + 1)%Z.

(** The double nearest to [d * 10^e], ties to even, with the sign [neg]: for
    [e < 0] the quotient is taken with more than 64 bits and a sticky bit, and
    then rounded once. *)
Definition decimalToFloat (neg : bool) (d e : Z) : float :=
  let signed (m : Z) := if neg then (- m)%Z else m in
  if (d =? 0)%Z then (if neg then (-0)%float else 0%float)
  else if (0 <=? e)%Z
  then SF2Prim (binary_normalize prec emax (signed (d * 10 ^ e)%Z) 0 true)
  else
    let p := (10 ^ (- e))%Z in
    let s := Z.max 0 (64 + bitLength p - bitLength d) in
    let q := (d * 2 ^ s / p)%Z in
    let r := (d * 2 ^ s mod p)%Z in
    let q' := (2 * q + (if (r =? 0)%Z then 0 else 1))%Z in
    SF2Prim (binary_normalize prec emax (signed q') (- s - 1) true).

(** [ExponentPart]: [e] or [E], an optional sign and at least one digit;
    zero when there is none. *)
Definition exponentPart (s : string) : Z :=
  match s with
  | String c rest =>
      if Ascii.eqb c "e" || Ascii.eqb c "E" then
        let '(negative, rest) :=
          match rest with
          | String "-" r => (true, r)
          | String "+" r => (false, r)
          | _ => (false, rest)
          end in
        let '(count, value, _) := digits rest 0 0 in
        if Nat.eqb count 0 then 0%Z else if negative then (- value)%Z else value
      else 0%Z
  | EmptyString => 0%Z
  end.

(** The value of the longest prefix of [s] that is a [StrDecimalLiteral], NaN
    when there is none. *)
Definition parseDecimal (s : string) : float :=
  let '(neg, s) :=
    match s with
    | String "-" r => (true, r)
    | String "+" r => (false, r)
    | _ => (false, s)
    end in
  if String.prefix "Infinity" s then (if neg then neg_infinity else infinity)
  else
    let '(intCount, intValue, rest) := digits s 0 0 in
    match rest with
    | String "." afterPoint =>
        let '(count, value, rest') := digits afterPoint intCount intValue in
        if Nat.eqb count 0 then nan
        else decimalToFloat neg value (exponentPart rest' - Z.of_nat (count - intCount))
    | _ =>
        if Nat.eqb intCount 0 then nan
        else decimalToFloat neg intValue (exponentPart rest)
    end.

(** Whether [ToString] of a parsed document returns: an object that owns a
    [toString] property (which cannot be a function) makes it throw, and so
    does an array that holds one. *)
Fixpoint stringifies (v : value) : bool :=
  match v with
  | VObj fields =>
      match lookup "toString" fields with
      | VUndefined => true
      | _ => false
      end
  | VArr xs => forallb stringifies xs
  | _ => true
  end.

(** The value whose text starts the text of [v]: an array is written as its
    elements joined by commas, and no number goes past a comma. *)
Fixpoint leading (v : value) : value :=
  match v with
  | VArr (x :: _) => leading x
  | VArr [] => VStr ""
  | _ => v
  end.

(** [parseFloat(v)].  The text of a number reads back as that number (and
    the text of [-0] is ["0"]); of the other values only a string can start
    with a number. *)
Definition parseFloat (v : value) : completion float :=
  if stringifies v then
    Normal (match leading v with
            | VStr s => parseDecimal (ConnectorTypeMapper.trimStart s)
            | VNum x => if PrimFloat.eqb x 0 then 0%float else x
            | _ => nan
            end)
  else Throw TypeError.

End JsGlobals.

(* ================================================================== *)
(** ** Route handlers: requests, responses and the Mapbox collaborator *)
(* ================================================================== *)

Module NextServer.
Import Js.

(** [request.nextUrl.searchParams]: the pairs of the query string. *)
Definition SearchParams : Type := list (string * string).

(** [searchParams.get(name)]: the first value of that name, or [null]. *)
Fixpoint get (searchParams : SearchParams) (name : string) : option string :=
  match searchParams with
  | [] => None
  | (k, v) :: rest => if String.eqb name k then Some v else get rest name
  end.

(** Truthiness of a string or [null]. *)
Definition given (o : option string) : bool :=
  match o with
  | Some s => truthy (VStr s)
  | None => false
  end.

(** [a || b]. *)
Definition orElse (a b : option string) : option string := if given a then a else b.

Record Response (B : Type) : Type := { status : Z; body : B }.
Arguments status {B} r.
Arguments body {B} r.

(** A status that a response with a body cannot have. *)
Definition nullBodyStatus (s : Z) : bool :=
  (s =? 101)%Z || (s =? 103)%Z || (s =? 204)%Z || (s =? 205)%Z || (s =? 304)%Z.

(** [NextResponse.json(body, { status })].  The [Response] constructor
    throws a [RangeError] for a status outside 200-599 and a [TypeError] for
    a null-body status; the handlers catch both alike, and both are written
    [TypeError] here. *)
Definition json {B} (b : B) (s : Z) : completion (Response B) :=
  if (s <? 200)%Z || (599 <? s)%Z || nullBodyStatus s then Throw TypeError
  else Normal {| status := s; body := b |}.

(** [try { body } catch (error) { handler }]. *)
Definition tryCatch {A} (body : completion A) (handler : exn -> completion A)
    : completion A :=
  match body with
  | Normal a => Normal a
  | Throw e => handler e
  end.

(** The body of a Mapbox response: a stream that breaks while it is read, or
    a text together with what [JSON.parse] makes of it ([None] when it is
    not JSON). *)
Inductive TextBody : Type :=
| Unreadable
| Text (raw : string) (parsed : option value).

(** What [await fetch(mapboxUrl, ...)] can do. *)
Inductive MapboxOutcome : Type :=
| MapboxRejected
| MapboxResponse (status : Z) (statusText : string) (body : TextBody).

(** [await response.text()]. *)
Definition text (b : TextBody) : completion string :=
  match b with
  | Unreadable => Throw NetworkError
  | Text raw _ => Normal raw
  end.

(** [await response.json()]. *)
Definition jsonOf (b : TextBody) : completion value :=
  match b with
  | Unreadable => Throw NetworkError
  | Text _ None => Throw SyntaxError
  | Text _ (Some v) => Normal v
  end.

(** [process.env.MAPBOX_SERVER_TOKEN || new Error('MAPBOX_SERVER_TOKEN undefined')]. *)
Inductive Token : Type :=
| TokenString (s : string)
| TokenError.

Definition MAPBOX_SERVER_TOKEN (env : option string) : Token :=
  match env with
  | Some s => if truthy (VStr s) then TokenString s else TokenError
  | None => TokenError
  end.

(** Truthiness of the token: an [Error] object is truthy. *)
Definition tokenGiven (t : Token) : bool :=
  match t with
  | TokenString s => truthy (VStr s)
  | TokenError => true
  end.

End NextServer.

(* ================================================================== *)
(** ** The EV routing handler ([src/app/api/routes/ev/route.ts])       *)
(* ================================================================== *)

Module EvRouteApi.
Import Js ConnectorTypeMapper NextServer.

(** [s.split(',')]. *)
Fixpoint splitComma (s : string) : list string :=
  match s with
  | EmptyString => [EmptyString]
  | String c rest =>
      if Ascii.eqb c "," then EmptyString :: splitComma rest
      else
        match splitComma rest with
        | piece :: pieces => String c piece :: pieces
        | [] => [String c EmptyString]
        end
  end.

(** [xs.join(',')]. *)
Fixpoint joinComma (xs : list string) : string :=
  match xs with
  | [] => EmptyString
  | [x] => x
  | x :: rest => x ++ "," ++ joinComma rest
  end.

(** Lines 59-88: the [ev_connector_types] parameter added to the Mapbox URL,
    if any, and the warnings written meanwhile. *)
Definition evConnectorTypes (searchParams : SearchParams)
    : option (list string) * list string :=
  let connectorTypes :=
    orElse (get searchParams "connector_types") (get searchParams "connectorTypes") in
  match connectorTypes with
  | Some types =>
      if given connectorTypes then
        let mapped := map canonicalize (splitComma types) in
        let validConnectorTypes := removeDuplicates [] (map fst mapped) in
        (match validConnectorTypes with
         | _ :: _ => Some validConnectorTypes
         | [] => None
         end,
         List.concat (map snd mapped))
      else (Some ["ccs_combo_type2"; "ccs_combo_type1"], [])
  | None => (Some ["ccs_combo_type2"; "ccs_combo_type1"], [])
  end.

(** The Mapbox Directions URL of line 57 with what lines 59-88 add to it: the
    parts that vary, the rest of the query being fixed text. *)
Record MapboxUrl : Type := {
  url_start : string;
  url_end : string;
  url_access_token : Token;
  url_ev_connector_types : option (list string) }.

(** The [error] of an error response:
    ['Mapbox server token is not configured'],
    ['Missing required parameters: start and end coordinates are required'],
    [`Mapbox API error: ${response.status} ${response.statusText}`],
    [`Mapbox API error: ${errorJson.message}`],
    [`Mapbox API error: ${errorText}`] and ['Internal server error']. *)
Inductive ErrorMessage : Type :=
| NotConfigured
| MissingParameters
| StatusError (status : Z) (statusText : string)
| MapboxMessage (message : value)
| MapboxText (errorText : string)
| InternalServerError.

Inductive Body : Type :=
| Error (error : ErrorMessage)
| Document (data : value).

(** Lines 113-130: the message for a Mapbox response that is not [ok]. *)
Definition errorMessageOf (status : Z) (statusText : string) (b : TextBody)
    : ErrorMessage :=
  match b with
  | Unreadable => StatusError status statusText
  | Text errorText None => MapboxText errorText
  | Text errorText (Some errorJson) =>
      match Js.get errorJson "message" with
      | Normal message =>
          if truthy message then MapboxMessage message
          else StatusError status statusText
      | Throw _ => MapboxText errorText
      end
  end.

(** [GET] (lines 15-152), for the environment's token, the query of the
    request and the [fetch] collaborator. *)
Definition GET (env : option string) (searchParams : SearchParams)
    (fetch : MapboxUrl -> MapboxOutcome) : completion (Response Body) :=
  tryCatch
    (if negb (tokenGiven (MAPBOX_SERVER_TOKEN env))
     then json (Error NotConfigured) 500
     else
       match get searchParams "start", get searchParams "end" with
       | Some start, Some end_ =>
           if negb (given (Some start)) || negb (given (Some end_))
           then json (Error MissingParameters) 400
           else
             let mapboxUrl :=
               {| url_start := start; url_end := end_;
                  url_access_token := MAPBOX_SERVER_TOKEN env;
                  url_ev_connector_types := fst (evConnectorTypes searchParams) |} in
             match fetch mapboxUrl with
             | MapboxRejected => Throw NetworkError
             | MapboxResponse status statusText b =>
                 if negb (Http.ok status)
                 then json (Error (errorMessageOf status statusText b)) status
                 else
                   bind (jsonOf b) (fun data =>
                   (* [console.log('Mapbox API response waypoints:', data.waypoints)] *)
                   bind (Js.get data "waypoints") (fun _ =>
                   json (Document data) 200))
             end
       | _, _ => json (Error MissingParameters) 400
       end)
    (fun _ => json (Error InternalServerError) 500).

End EvRouteApi.

(* ================================================================== *)
(** ** The station handler ([src/app/api/charging-stations/route.ts])  *)
(* ================================================================== *)

Module StationsApi.
Import Js NextServer JsGlobals.

(** The object that the callback of [data.features.map] returns (lines
    86-101); [NextResponse.json] serializes it. *)
Record Station : Type := {
  st_id : value;
  st_lat : float;
  st_lng : float;
  st_name : value;
  st_chargerType : list value;
  st_powerLevel : value;
  st_network : value;
  st_available : bool;
  st_address : value;
  st_city : value;
  st_state : value;
  st_postalCode : value;
  st_country : value;
  st_distance : value }.

(** [v == null]: what stops an optional chain [v?.]. *)
Definition nullish (v : value) : bool :=
  match v with
  | VUndefined | VNull => true
  | _ => false
  end.

Local Open Scope js_scope.

(** [evse?.connectors[0]]. *)
Definition firstConnector (evse : value) : completion value :=
  if nullish evse then Normal VUndefined
  else
    connectors <- Js.get evse "connectors" ;;
    get0 connectors.

(** [evse?.connectors.map((c: any) => c.standard) || []]. *)
Definition chargerTypeOf (evse : value) : completion (list value) :=
  if nullish evse then Normal []
  else
    connectors <- Js.get evse "connectors" ;;
    connectors <- asArray connectors ;;
    mapM (fun c => Js.get c "standard") connectors.

(** [connector?.max_electric_power || 0]. *)
Definition powerLevelOf (connector : value) : completion value :=
  if nullish connector then Normal (VNum 0)
  else
    power <- Js.get connector "max_electric_power" ;;
    Normal (or_else power (VNum 0)).

(** [evse?.status === 'AVAILABLE']. *)
Definition availableOf (evse : value) : completion bool :=
  if nullish evse then Normal false
  else
    status <- Js.get evse "status" ;;
    Normal (strictEqStr status "AVAILABLE").

(** The callback of [data.features.map] (lines 81-102). *)
Definition transformFeature (feature : value) : completion Station :=
  properties <- Js.get feature "properties" ;;
  location <- Js.get properties "location" ;;
  evses <- Js.get location "evses" ;;
  evse <- get0 evses ;;
  connector <- firstConnector evse ;;
  id <- Js.get location "id" ;;
  coordinates <- Js.get location "coordinates" ;;
  latitude <- Js.get coordinates "latitude" ;;
  lat <- parseFloat latitude ;;
  longitude <- Js.get coordinates "longitude" ;;
  lng <- parseFloat longitude ;;
  name <- Js.get location "name" ;;
  chargerType <- chargerTypeOf evse ;;
  powerLevel <- powerLevelOf connector ;;
  operator <- Js.get location "operator" ;;
  network <- Js.get operator "name" ;;
  available <- availableOf evse ;;
  address <- Js.get location "address" ;;
  city <- Js.get location "city" ;;
  state <- Js.get location "state" ;;
  postal_code <- Js.get location "postal_code" ;;
  country <- Js.get location "country" ;;
  proximity <- Js.get properties "proximity" ;;
  distance <- Js.get proximity "distance" ;;
  Normal {| st_id := id; st_lat := lat; st_lng := lng; st_name := name;
            st_chargerType := chargerType; st_powerLevel := powerLevel;
            st_network := network; st_available := available;
            st_address := address; st_city := city; st_state := state;
            st_postalCode := postal_code; st_country := country;
            st_distance := distance |}.

(** Lines 78-102. *)
Definition transform (data : value) : completion (list Station) :=
  features <- Js.get data "features" ;;
  features <- asArray features ;;
  mapM transformFeature features.

(** The Mapbox charge-finder URL of lines 38-47: its parameters, the
    optional ones being present when the request gave them a non-empty
    value. *)
Record MapboxUrl : Type := {
  url_access_token : Token;
  url_latitude : string;
  url_longitude : string;
  url_distance : string;
  url_optional : list (string * string) }.

Definition optionalNames : list string :=
  ["limit"; "connector_types"; "operators"; "exclude_operators";
   "min_charging_power"; "max_charging_power"; "availability"].

Definition optionalParameters (searchParams : SearchParams) : list (string * string) :=
  flat_map
    (fun name =>
       match get searchParams name with
       | Some v => if given (Some v) then [(name, v)] else []
       | None => []
       end)
    optionalNames.

(** The [error] of an error response:
    ['Missing required parameters: latitude and longitude are required'],
    [`Mapbox API error: ${response.status} ${response.statusText}`] and
    ['Internal server error']. *)
Inductive ErrorMessage : Type :=
| MissingParameters
| StatusError (status : Z) (statusText : string)
| InternalServerError.

Inductive Body : Type :=
| Error (error : ErrorMessage)
| Stations (transformedData : list Station).

(** [GET] (lines 12-113). *)
Definition GET (env : option string) (searchParams : SearchParams)
    (fetch : MapboxUrl -> MapboxOutcome) : completion (Response Body) :=
  tryCatch
    (match get searchParams "latitude", get searchParams "longitude" with
     | Some latitude, Some longitude =>
         if negb (given (Some latitude)) || negb (given (Some longitude))
         then json (Error MissingParameters) 400
         else
           let distance :=
             match orElse (get searchParams "distance") (Some "10") with
             | Some d => d
             | None => "10"
             end in
           let mapboxUrl :=
             {| url_access_token := MAPBOX_SERVER_TOKEN env;
                url_latitude := latitude; url_longitude := longitude;
                url_distance := distance;
                url_optional := optionalParameters searchParams |} in
           match fetch mapboxUrl with
           | MapboxRejected => Throw NetworkError
           | MapboxResponse status statusText b =>
               if negb (Http.ok status)
               then
                 errorText <- text b ;;
                 json (Error (StatusError status statusText)) status
               else
                 data <- jsonOf b ;;
                 transformedData <- transform data ;;
                 json (Stations transformedData) 200
           end
     | _, _ => json (Error MissingParameters) 400
     end)
    (fun _ => json (Error InternalServerError) 500).

End StationsApi.

(* ================================================================== *)
(** ** The route planner ([src/app/routes/page.tsx])                   *)
(* ================================================================== *)

Module RoutesPage.
Import Js Http EvRouting.

(** [calculateZoomLevel] (lines 73-87). *)
Definition calculateZoomLevel (distanceInKm : float) : float :=
  if (1000 <? distanceInKm)%float then 4%float
  else if (500 <? distanceInKm)%float then 5%float
  else if (250 <? distanceInKm)%float then 6%float
  else if (100 <? distanceInKm)%float then 7%float
  else if (50 <? distanceInKm)%float then 8%float
  else if (25 <? distanceInKm)%float then 9%float
  else if (10 <? distanceInKm)%float then 10%float
  else if (5 <? distanceInKm)%float then 11%float
  else if (2 <? distanceInKm)%float then 12%float
  else if (1 <? distanceInKm)%float then 13%float
  else if (0.5 <? distanceInKm)%float then 14%float
  else 15%float.

(** [interface LocationDetail] ([src/services/searchService.ts]). *)
Record LocationDetail : Type := {
  loc_name : string;
  loc_latitude : float;
  loc_longitude : float;
  loc_address : option string;
  loc_full_address : option string;
  loc_place_formatted : string }.

(** The check boxes of lines 39-45. *)
Record SelectedConnectors : Type := {
  ccs : bool;
  chademo : bool;
  j1772 : bool;
  tesla : bool;
  nacs : bool }.

(** The state of the page that [calculateRoute] reads and writes, and the
    alerts it has shown. *)
Record Page : Type := {
  startLocation : option LocationDetail;
  endLocation : option LocationDetail;
  vehicleTypeInput : string;
  vehicleRange : float;
  selectedConnectors : SelectedConnectors;
  route : option EvRoute;
  isCalculatingRoute : bool;
  routeError : option string;
  alerts : list string }.

(** Lines 153-159. *)
Definition connectorTypesOf (selected : SelectedConnectors) : list string :=
  ((if ccs selected then ["ccs_combo_type2"] else [])
   ++ (if chademo selected then ["chademo"] else [])
   ++ (if j1772 selected then ["ccs_combo_type1"] else [])
   ++ (if tesla selected then ["tesla"] else [])
   ++ (if nacs selected then ["tesla"] else []))%list.

(** Lines 161-168. *)
Definition vehicleParamsOf (page : Page) : EvVehicleParams :=
  let connectorTypes := connectorTypesOf (selectedConnectors page) in
  {| vehicleType :=
       if truthy (VStr (vehicleTypeInput page)) then Some (vehicleTypeInput page) else None;
     range := Some (vehicleRange page * 1609.34)%float;
     initialCharge := Some 10%float;
     maxCharge := Some 100%float;
     minCharge := Some 10%float;
     connectorTypes :=
       match connectorTypes with
       | _ :: _ => Some connectorTypes
       | [] => None
       end |}.

Definition selectBoth : string :=
  "Please select both a starting point and destination".

Definition couldNotCalculate : string :=
  "Could not calculate a route with the given parameters. Try adjusting your vehicle range or connector types.".

Definition anErrorOccurred : string :=
  "An error occurred while calculating the route. Please try again.".

Definition withResult (r : option EvRoute) (e : option string) (page : Page) : Page :=
  {| startLocation := startLocation page; endLocation := endLocation page;
     vehicleTypeInput := vehicleTypeInput page; vehicleRange := vehicleRange page;
     selectedConnectors := selectedConnectors page;
     route := r; isCalculatingRoute := false; routeError := e;
     alerts := alerts page |}.

Definition alert (message : string) (page : Page) : Page :=
  {| startLocation := startLocation page; endLocation := endLocation page;
     vehicleTypeInput := vehicleTypeInput page; vehicleRange := vehicleRange page;
     selectedConnectors := selectedConnectors page;
     route := route page; isCalculatingRoute := isCalculatingRoute page;
     routeError := routeError page;
     alerts := (alerts page ++ [message])%list |}.

(** [calculateRoute] (lines 141-191): the page once the promise has settled,
    with the [fetch] collaborator of [calculateEvRoute] passed in.
    [setRouteError(null)] comes first, so the error afterwards is the one
    this call has set, if any. *)
Definition calculateRoute (fetch : Url -> FetchOutcome) (page : Page) : Page :=
  match startLocation page, endLocation page with
  | Some startLocation, Some endLocation =>
      let vehicleParams := vehicleParamsOf page in
      match fst (calculateEvRoute fetch
                   (loc_latitude startLocation) (loc_longitude startLocation)
                   (loc_latitude endLocation) (loc_longitude endLocation)
                   vehicleParams) with
      | Normal (Some routeResult) => withResult (Some routeResult) None page
      | Normal None => withResult (route page) (Some couldNotCalculate) page
      | Throw _ => withResult (route page) (Some anErrorOccurred) page
      end
  | _, _ => alert selectBoth page
  end.

End RoutesPage.

(* ================================================================== *)
(** ** Station details ([src/services/mapbox/chargingStations.ts], lines
    90-168, and [src/components/MapWrapper.tsx], lines 199-234)        *)
(* ================================================================== *)

Module StationDetails.
Import Js Http JsGlobals MapWrapper.

(** [interface ChargingStationDetails] of [types.ts]; a copied field holds
    whatever value the document had there. *)
Record Connector : Type := {
  con_id : value;
  con_standard : value;
  con_format : value;
  con_powerType : value;
  con_maxVoltage : value;
  con_maxAmperage : value;
  con_maxElectricPower : value }.

Record Evse : Type := {
  evse_uid : value;
  evse_status : value;
  evse_connectors : list Connector }.

Record RegularHour : Type := {
  rh_weekday : value;
  rh_periodBegin : value;
  rh_periodEnd : value }.

Record OpeningTimes : Type := {
  ot_twentyfourseven : value;
  ot_regularHours : option (list RegularHour) }.

Record PriceComponent : Type := {
  pc_type : value;
  pc_price : value;
  pc_stepSize : value }.

Record TariffElement : Type := { te_priceComponents : list PriceComponent }.

Record Tariff : Type := {
  tariff_id : value;
  tariff_currency : value;
  tariff_elements : list TariffElement;
  tariff_type : value }.

Record Operator : Type := { op_name : value; op_website : value }.

Record Owner : Type := { owner_name : value; owner_website : value }.

Record ChargingStationDetails : Type := {
  sd_id : value;
  sd_name : value;
  sd_address : value;
  sd_city : value;
  sd_postalCode : value;
  sd_country : value;
  sd_latitude : float;
  sd_longitude : float;
  sd_operator : Operator;
  sd_owner : option Owner;
  sd_evses : list Evse;
  sd_openingTimes : option OpeningTimes;
  sd_parkingType : value;
  sd_tariffs : list Tariff }.

Local Open Scope js_scope.

(** [v?.k]. *)
Definition optionalGet (v : value) (k : string) : completion value :=
  if StationsApi.nullish v then Normal VUndefined else get v k.

(** The callback of [evse.connectors.map] (lines 121-129). *)
Definition connectorOf (connector : value) : completion Connector :=
  id <- get connector "id" ;;
  standard <- get connector "standard" ;;
  format <- get connector "format" ;;
  power_type <- get connector "power_type" ;;
  max_voltage <- get connector "max_voltage" ;;
  max_amperage <- get connector "max_amperage" ;;
  max_electric_power <- get connector "max_electric_power" ;;
  Normal {| con_id := id; con_standard := standard; con_format := format;
            con_powerType := power_type; con_maxVoltage := max_voltage;
            con_maxAmperage := max_amperage;
            con_maxElectricPower := max_electric_power |}.

(** The callback of [location.evses.map] (lines 118-130). *)
Definition evseOf (evse : value) : completion Evse :=
  uid <- get evse "uid" ;;
  status <- get evse "status" ;;
  connectors <- get evse "connectors" ;;
  connectors <- asArray connectors ;;
  connectors <- mapM connectorOf connectors ;;
  Normal {| evse_uid := uid; evse_status := status; evse_connectors := connectors |}.

(** Lines 110-113. *)
Definition operatorOf (location : value) : completion Operator :=
  operator <- get location "operator" ;;
  name <- optionalGet operator "name" ;;
  website <- optionalGet operator "website" ;;
  Normal {| op_name := or_else name (VStr "Unknown"); op_website := website |}.

(** Lines 114-117. *)
Definition ownerOf (location : value) : completion (option Owner) :=
  owner <- get location "owner" ;;
  if truthy owner then
    name <- get owner "name" ;;
    website <- get owner "website" ;;
    Normal (Some {| owner_name := name; owner_website := website |})
  else Normal None.

Definition regularHourOf (hour : value) : completion RegularHour :=
  weekday <- get hour "weekday" ;;
  period_begin <- get hour "period_begin" ;;
  period_end <- get hour "period_end" ;;
  Normal {| rh_weekday := weekday; rh_periodBegin := period_begin;
            rh_periodEnd := period_end |}.

(** Lines 131-140. *)
Definition openingTimesOf (location : value) : completion (option OpeningTimes) :=
  opening_times <- get location "opening_times" ;;
  if truthy opening_times then
    twentyfourseven <- get opening_times "twentyfourseven" ;;
    regular_hours <- get opening_times "regular_hours" ;;
    regularHours <-
      (if truthy regular_hours then
         hours <- asArray regular_hours ;;
         hours <- mapM regularHourOf hours ;;
         Normal (Some hours)
       else Normal None) ;;
    Normal (Some {| ot_twentyfourseven := twentyfourseven;
                    ot_regularHours := regularHours |})
  else Normal None.

Definition priceComponentOf (component : value) : completion PriceComponent :=
  type <- get component "type" ;;
  price <- get component "price" ;;
  step_size <- get component "step_size" ;;
  Normal {| pc_type := type; pc_price := price; pc_stepSize := step_size |}.

Definition tariffElementOf (element : value) : completion TariffElement :=
  price_components <- get element "price_components" ;;
  price_components <- asArray price_components ;;
  priceComponents <- mapM priceComponentOf price_components ;;
  Normal {| te_priceComponents := priceComponents |}.

(** The callback of [tariffs.map] (lines 142-153). *)
Definition tariffOf (tariff : value) : completion Tariff :=
  id <- get tariff "id" ;;
  currency <- get tariff "currency" ;;
  elements <- get tariff "elements" ;;
  elements <- asArray elements ;;
  elements <- mapM tariffElementOf elements ;;
  type <- get tariff "type" ;;
  Normal {| tariff_id := id; tariff_currency := currency;
            tariff_elements := elements; tariff_type := type |}.

(** Lines 101-157: the details made from the document, [null] when it has
    no [properties.location]. *)
Definition detailsOf (data : value) : completion (option ChargingStationDetails) :=
  if truthy data then
    properties <- get data "properties" ;;
    if truthy properties then
      location <- get properties "location" ;;
      if truthy location then
        tariffs <- get properties "tariffs" ;;
        let tariffs := or_else tariffs (VArr []) in
        id <- get location "id" ;;
        name <- get location "name" ;;
        address <- get location "address" ;;
        city <- get location "city" ;;
        postal_code <- get location "postal_code" ;;
        country <- get location "country" ;;
        coordinates <- get location "coordinates" ;;
        latitude <- get coordinates "latitude" ;;
        latitude <- parseFloat latitude ;;
        longitude <- get coordinates "longitude" ;;
        longitude <- parseFloat longitude ;;
        operator <- operatorOf location ;;
        owner <- ownerOf location ;;
        evses <- get location "evses" ;;
        evses <- asArray evses ;;
        evses <- mapM evseOf evses ;;
        openingTimes <- openingTimesOf location ;;
        parking_type <- get location "parking_type" ;;
        tariffs <- asArray tariffs ;;
        tariffs <- mapM tariffOf tariffs ;;
        Normal (Some {| sd_id := id; sd_name := name; sd_address := address;
                        sd_city := city; sd_postalCode := postal_code;
                        sd_country := country; sd_latitude := latitude;
                        sd_longitude := longitude; sd_operator := operator;
                        sd_owner := owner; sd_evses := evses;
                        sd_openingTimes := openingTimes;
                        sd_parkingType := parking_type; sd_tariffs := tariffs |})
      else Normal None
    else Normal None
  else Normal None.

(** The request of line 92; the id is the parameter's value, which
    [encodeURIComponent] writes into the URL. *)
Definition detailsUrl (stationId : string) : Url :=
  ("/api/charging-stations/details", [("id", QString stationId)]).

(** [fetchChargingStationDetails], with the [fetch] collaborator passed in. *)
Definition fetchChargingStationDetails (fetch : Url -> FetchOutcome) (stationId : string)
    : Observed (option ChargingStationDetails) :=
  tryCatchLog
    (match fetch (detailsUrl stationId) with
     | Rejected => Throw NetworkError
     | Response status body =>
         if negb (ok status) then throwApiError status body
         else
           data <- json body ;;
           detailsOf data
     end)
    "Error fetching charging station details:" None.

(** *** The modal of the map component *)

(** The state of lines 62-64. *)
Record Modal : Type := {
  selectedStation : option ChargingStationDetails;
  isModalOpen : bool;
  isLoadingDetails : bool }.

Definition setSelectedStation (d : option ChargingStationDetails) (s : State) (m : Modal)
    : Modal :=
  if mounted s
  then {| selectedStation := d; isModalOpen := isModalOpen m;
          isLoadingDetails := isLoadingDetails m |}
  else m.

Definition setIsModalOpen (b : bool) (s : State) (m : Modal) : Modal :=
  if mounted s
  then {| selectedStation := selectedStation m; isModalOpen := b;
          isLoadingDetails := isLoadingDetails m |}
  else m.

Definition setIsLoadingDetails (b : bool) (s : State) (m : Modal) : Modal :=
  if mounted s
  then {| selectedStation := selectedStation m; isModalOpen := isModalOpen m;
          isLoadingDetails := b |}
  else m.

Definition failedToLoad : string :=
  "Failed to load charging station details. Please try again.".

(** What a click on a marker has done once its promise has settled: the
    component and its modal, the requests sent, and the id of the message
    [`Station with ID ${stationId} not found`] if it was written. *)
Record Clicked : Type := {
  component : State;
  modal : Modal;
  sent : list Url;
  notFound : option string }.

(** [stations.find(s => s.id === stationId)]. *)
Definition findStation (stationId : string) (s : State) : option ChargingStations.ChargingStation :=
  find (fun station => String.eqb (ChargingStations.id station) stationId) (stations s).

(** [fetchStationDetails] (lines 200-224), which [handleMarkerClick] calls,
    with the [fetch] collaborator of [fetchChargingStationDetails] passed
    in. *)
Definition fetchStationDetails (fetch : Url -> FetchOutcome) (stationId : string)
    (s : State) (m : Modal) : Clicked :=
  match findStation stationId s with
  | None => {| component := s; modal := m; sent := []; notFound := Some stationId |}
  | Some _ =>
      let m := setIsLoadingDetails true s m in
      let (result, written) := fetchChargingStationDetails fetch stationId in
      let s := consoleError written s in
      let (s, m) :=
        match result with
        | Normal (Some details) =>
            let m := setSelectedStation (Some details) s m in
            (s, setIsModalOpen true s m)
        | Normal None => (setError (Some failedToLoad) s, m)
        | Throw err =>
            let s := consoleError [ {| ce_label := "Error fetching charging station details:";
                                       ce_error := err |} ] s in
            (setError (Some failedToLoad) s, m)
        end in
      {| component := s; modal := setIsLoadingDetails false s m;
         sent := [detailsUrl stationId]; notFound := None |}
  end.

(** [handleCloseModal] (lines 232-234). *)
Definition handleCloseModal (s : State) (m : Modal) : Modal := setIsModalOpen false s m.

End StationDetails.

(* ================================================================== *)
(** ** Notions used to state the properties of the handlers, the page
    and the details                                                     *)
(* ================================================================== *)

Module HandlerSpec.
Import Js NextServer.


(** A query as the client sends it, and a Mapbox answer that is an error. *)
Definition routeQuery : SearchParams :=
  [("start", "-77.03,38.9"); ("end", "-74.0,40.7");
   ("connector_types", "ccs_combo_type2,tesla")].

(** [s] between double quotes. *)
Definition quoted (s : string) : string :=
  String (ascii_of_nat 34) (s ++ String (ascii_of_nat 34) "").

Definition notFoundText : string :=
  "{" ++ quoted "message" ++ ":" ++ quoted "Not Found" ++ "}".

Definition notFoundAnswer : MapboxOutcome :=
  MapboxResponse 404 "Not Found"
    (Text notFoundText (Some (VObj [("message", VStr "Not Found")]))).

End HandlerSpec.


Module StationsSpec.
Import Js StationsApi HandlerSpec.

(** A feature that lacks one of the objects the transformation reads into. *)
Inductive Incomplete (feature : value) : Prop :=
| NoProperties :
    Js.get feature "properties" = Normal VUndefined -> Incomplete feature
| NoLocation properties :
    Js.get feature "properties" = Normal properties ->
    Js.get properties "location" = Normal VUndefined -> Incomplete feature
| NoEvses properties location :
    Js.get feature "properties" = Normal properties ->
    Js.get properties "location" = Normal location ->
    Js.get location "evses" = Normal VUndefined -> Incomplete feature
| NoCoordinates properties location :
    Js.get feature "properties" = Normal properties ->
    Js.get properties "location" = Normal location ->
    Js.get location "coordinates" = Normal VUndefined -> Incomplete feature
| NoOperator properties location :
    Js.get feature "properties" = Normal properties ->
    Js.get properties "location" = Normal location ->
    Js.get location "operator" = Normal VUndefined -> Incomplete feature
| NoProximity properties :
    Js.get feature "properties" = Normal properties ->
    Js.get properties "proximity" = Normal VUndefined -> Incomplete feature.

(** The feature's first EVSE, when its location lists at least one. *)
Definition firstEvse (feature evse : value) : Prop :=
  exists properties location others,
    Js.get feature "properties" = Normal properties /\
    Js.get properties "location" = Normal location /\
    Js.get location "evses" = Normal (VArr (evse :: others)).

Definition noEvse (feature : value) : Prop :=
  exists properties location,
    Js.get feature "properties" = Normal properties /\
    Js.get properties "location" = Normal location /\
    Js.get location "evses" = Normal (VArr []).

(** An EVSE in use, and a feature whose first EVSE it is while the second
    one is free. *)
Definition busyEvse : value :=
  VObj [("status", VStr "CHARGING");
        ("connectors",
         VArr [VObj [("standard", VStr "IEC_62196_T2");
                     ("max_electric_power", VNum 22000)]])].

Definition busyFirstFeature : value :=
  VObj [("properties",
         VObj [("location",
                VObj [("id", VStr "loc-1");
                      ("name", VStr "Depot");
                      ("coordinates", VObj [("latitude", VStr "38.9"); ("longitude", VStr "-77.03")]);
                      ("operator", VObj [("name", VStr "Net")]);
                      ("evses",
                       VArr [busyEvse;
                             VObj [("status", VStr "AVAILABLE");
                                   ("connectors", VArr [])]])]);
               ("proximity", VObj [("distance", VNum 120)])])].

(** The least feature that the transformation reads to its end, and its
    text. *)
Definition minimalFeature : value :=
  VObj [("properties",
         VObj [("location",
                VObj [("evses", VArr []); ("coordinates", VObj []); ("operator", VObj [])]);
               ("proximity", VObj [])])].

Definition minimalFeatureText : string :=
  "{" ++ quoted "properties" ++ ":{" ++ quoted "location" ++ ":{"
      ++ quoted "evses" ++ ":[]," ++ quoted "coordinates" ++ ":{},"
      ++ quoted "operator" ++ ":{}}," ++ quoted "proximity" ++ ":{}}}".

(** A Mapbox answer with the document [{ features }] of the text [raw]. *)
Definition answering (raw : string) (features : list value)
    : MapboxUrl -> NextServer.MapboxOutcome :=
  fun _ => NextServer.MapboxResponse 200 "OK"
             (NextServer.Text raw (Some (VObj [("features", VArr features)]))).

Definition oneFeatureText : string :=
  "{" ++ quoted "features" ++ ":[" ++ minimalFeatureText ++ "]}".

Definition brokenFeatureText : string :=
  "{" ++ quoted "features" ++ ":[" ++ minimalFeatureText ++ ",{}]}".

Definition position : NextServer.SearchParams :=
  [("latitude", "38.9"); ("longitude", "-77.03")].

(** The feature's location has coordinates without a latitude. *)
Definition noLatitude (feature : value) : Prop :=
  exists properties location coordinates latitude,
    Js.get feature "properties" = Normal properties /\
    Js.get properties "location" = Normal location /\
    Js.get location "coordinates" = Normal coordinates /\
    Js.get coordinates "latitude" = Normal latitude /\
    nullish latitude = true.

End StationsSpec.

Module PageSpec.
Import Js Http EvRouting RoutesPage.

(** The page with both places chosen and the CCS box ticked. *)
Definition washington : LocationDetail :=
  {| loc_name := "Washington"; loc_latitude := 38.9072; loc_longitude := -77.0369;
     loc_address := None; loc_full_address := None;
     loc_place_formatted := "District of Columbia, United States" |}.

Definition newYork : LocationDetail :=
  {| loc_name := "New York"; loc_latitude := 40.7128; loc_longitude := -74.006;
     loc_address := None; loc_full_address := None;
     loc_place_formatted := "New York, United States" |}.

Definition tripPage : Page :=
  {| startLocation := Some washington; endLocation := Some newYork;
     vehicleTypeInput := ""; vehicleRange := 250;
     selectedConnectors := {| ccs := true; chademo := false; j1772 := false;
                              tesla := false; nacs := false |};
     route := None; isCalculatingRoute := false; routeError := None; alerts := [] |}.

End PageSpec.

Module ComponentSpec.
Import Js Http ChargingStations MapWrapper CoordinatorSpec.

(** A component that has sent nothing, waits for nothing and holds
    nothing. *)
Definition silent (s : State) : Prop :=
  requests s = [] /\ timers s = [] /\ inFlight s = [] /\ stationsCache s = [] /\
  isLoading s = false /\ error s = None.

(** The default props, but with [useRealData = false]. *)
Definition staticProps : Props :=
  {| centerLat := 38.9072; centerLng := -77.0369;
     zoom := 12; searchRadius := 50; useRealData := false |}.

(** The mount request answers with station A; the request that the mount
    effect then sends answers with the later report of the same station. *)
Definition firstAnswer : Event :=
  FetchSettles 0 (Success (Json (FetchedStations [stationA]))).

Definition repeatedAnswer : Event :=
  FetchSettles 1 (Success (Json (FetchedStations [stationA']))).

(** A pan at zoom 15, which arms the debounce timer. *)
Definition pan : Event := MapMove (40, -74)%float 15.

(** After the unmount: the loading timer of the pan fires and the mount
    request answers. *)
Definition afterUnmount : list Event :=
  [Elapse 300; TimerFires 1; firstAnswer].

End ComponentSpec.

Module DetailsSpec.
Import Js Http StationDetails.

(** A document that [fetchChargingStationDetails] answers with [null]: it is
    falsy, has no [properties], no [properties.location], or a location
    without a list of EVSEs or without coordinates. *)
Inductive Unusable (data : value) : Prop :=
| Falsy : truthy data = false -> Unusable data
| WithoutProperties properties :
    get data "properties" = Normal properties -> truthy properties = false ->
    Unusable data
| WithoutLocation properties location :
    get data "properties" = Normal properties ->
    get properties "location" = Normal location -> truthy location = false ->
    Unusable data
| WithoutEvses properties location :
    get data "properties" = Normal properties ->
    get properties "location" = Normal location ->
    get location "evses" = Normal VUndefined ->
    Unusable data
| WithoutCoordinates properties location :
    get data "properties" = Normal properties ->
    get properties "location" = Normal location ->
    get location "coordinates" = Normal VUndefined ->
    Unusable data.

Definition minimalDetails : value :=
  VObj [("properties",
         VObj [("location",
                VObj [("id", VStr "A");
                      ("coordinates", VObj [("latitude", VStr "40.7128");
                                            ("longitude", VStr "-74.006")]);
                      ("evses", VArr [])])])].

Definition closedModal : Modal :=
  {| selectedStation := None; isModalOpen := false; isLoadingDetails := false |}.

(** The details endpoint answering with the document [data]. *)
Definition answeringDetails (data : value) : Url -> FetchOutcome :=
  fun _ => Response 200 (JsonBody data).

End DetailsSpec.

(* ================================================================== *)
(** * Properties                                                        *)
(* ================================================================== *)

Section Completions.
Import Js.

Lemma bind_normal {A B} (c : completion A) (k : A -> completion B) (b : B) :
  bind c k = Normal b -> exists a, c = Normal a /\ k a = Normal b.
Proof.
  destruct c as [a|e]; simpl; intro H; [exists a; auto | discriminate].
Qed.

Lemma mapM_throws {A B} (f : A -> completion B) (xs : list A) (x : A) :
  In x xs -> (exists e, f x = Throw e) -> exists e, mapM f xs = Throw e.
Proof.
  induction xs as [|y ys IH]; simpl; [tauto|].
  intros [->|Hin] Hx.
  - destruct Hx as [e ->]. simpl. eauto.
  - destruct (f y) as [b|e]; simpl; [|eauto].
    destruct (IH Hin Hx) as [e ->]. simpl. eauto.
Qed.

End Completions.

(* ------------------------------------------------------------------ *)
(** ** The route normalizer                                            *)
(* ------------------------------------------------------------------ *)

Section RouteProperties.
Import Js Http EvRouting RouteSpec.

(** Stepping through a chain of [bind]s towards a throw that comes later. *)
Ltac through_bind :=
  match goal with
  | |- exists e, bind ?c _ = Throw e =>
      let E := fresh "E" in destruct c eqn:E; simpl; [|eauto]
  end.

Lemma charging_entry_of_waypoint (w : value) (o : option ChargingWaypoint) (wp : Waypoint) :
  chargingWaypointOf w = Normal o -> waypointOf w = Normal wp -> o = chargingStop wp.
Proof.
  unfold chargingWaypointOf, waypointOf, metadataOf, chargingStop.
  destruct w as [| | b | x | s | xs | fields]; simpl; try discriminate;
    try (intros H1 H2; injection H1 as <-; injection H2 as <-; reflexivity).
  destruct (lookup "metadata" fields) as [| | b | x | s | xs | mfields] eqn:Hmd; simpl;
    try (intros H1 H2; injection H1 as <-; injection H2 as <-; reflexivity).
  - destruct b; simpl; intros H1 H2; injection H1 as <-; injection H2 as <-; reflexivity.
  - destruct (negb _); simpl; intros H1 H2; injection H1 as <-; injection H2 as <-; reflexivity.
  - destruct (negb _); simpl; intros H1 H2; injection H1 as <-; injection H2 as <-; reflexivity.
  - destruct (strictEqStr (lookup "type" mfields) "charging-station") eqn:Hty;
      intros H1 H2; injection H1 as <-; injection H2 as <-; simpl; rewrite Hty; reflexivity.
Qed.

Lemma collect_is_projection (l : list value) :
  forall cws ws,
    collect chargingWaypointOf l = Normal cws ->
    mapM waypointOf l = Normal ws ->
    cws = chargingStops ws.
Proof.
  induction l as [|w l IH]; simpl; intros cws ws Hc Hm.
  - injection Hc as <-. injection Hm as <-. reflexivity.
  - apply bind_normal in Hc as (o & Ho & Hc).
    apply bind_normal in Hc as (cws' & Hcws' & Hc).
    apply bind_normal in Hm as (wp & Hwp & Hm).
    apply bind_normal in Hm as (ws' & Hws' & Hm).
    injection Hc as <-. injection Hm as <-.
    rewrite (charging_entry_of_waypoint w o wp Ho Hwp) in *.
    simpl. rewrite (IH _ _ Hcws' Hws').
    destruct (chargingStop wp); reflexivity.
Qed.

(** When [normalize] returns a route, it read an array of waypoints, and both
    lists of the route come from that array. *)
Lemma normalize_some (data : value) (r : EvRoute) :
  normalize data = Normal (Some r) ->
  exists routes route src,
    get data "routes" = Normal routes /\
    get0 routes = Normal route /\
    waypointsSourceOf data route = Normal (VArr src) /\
    collect chargingWaypointOf src = Normal (route_chargingWaypoints r) /\
    mapM waypointOf src = Normal (route_waypoints r).
Proof.
  unfold normalize. intro H.
  apply bind_normal in H as (routes & Hroutes & H).
  destruct (negb (truthy routes)); [discriminate|].
  apply bind_normal in H as (empty & Hempty & H).
  destruct empty; [discriminate|].
  apply bind_normal in H as (route & Hroute & H).
  apply bind_normal in H as (wsrc & Hwsrc & H).
  apply bind_normal in H as (src & Hsrc & H).
  apply bind_normal in H as (cws & Hcws & H).
  apply bind_normal in H as (distance & _ & H).
  apply bind_normal in H as (duration & _ & H).
  apply bind_normal in H as (geometry & _ & H).
  apply bind_normal in H as (legs & _ & H).
  apply bind_normal in H as (legs' & _ & H).
  apply bind_normal in H as (legs'' & _ & H).
  apply bind_normal in H as (ws & Hws & H).
  injection H as <-. simpl.
  destruct wsrc; simpl in Hsrc; try discriminate. injection Hsrc as ->.
  exists routes, route, src. auto.
Qed.

Lemma throwApiError_throws {A} (status : Z) (body : Body) :
  exists e, @throwApiError A status body = Throw e.
Proof.
  unfold throwApiError.
  destruct (json body) as [ed|]; simpl; [|eauto].
  destruct (get ed "error") as [err|]; simpl; [|eauto].
  destruct (truthy err); eauto.
Qed.

(** A route that [calculateEvRoute] resolves to is one that [normalize]
    produced from the document of a 2xx response. *)
Lemma calculateEvRoute_some fetch a b c d vp r log :
  calculateEvRoute fetch a b c d vp = (Normal (Some r), log) ->
  exists data, normalize data = Normal (Some r).
Proof.
  unfold calculateEvRoute, tryCatchLog.
  destruct (tryBody _) as [o|e] eqn:Hb; intro H; [|discriminate].
  injection H as -> _.
  unfold tryBody in Hb.
  destruct (fetch _) as [|status body]; [discriminate|].
  destruct (negb (ok status)).
  - destruct (@throwApiError_throws (option EvRoute) status body) as [e He].
    congruence.
  - apply bind_normal in Hb as (data & _ & Hb). eauto.
Qed.

Lemma chargingWaypointOf_copies (w : value) (cw : ChargingWaypoint) :
  chargingWaypointOf w = Normal (Some cw) ->
  marksChargingStop w = true /\ copiesChargeFields w cw.
Proof.
  unfold chargingWaypointOf, marksChargingStop, copiesChargeFields.
  destruct (get w "metadata") as [md|e] eqn:Hmd; simpl; [|discriminate].
  destruct (truthy md) eqn:Ht; [|discriminate].
  destruct md as [| | b | x | s | xs | mfields]; simpl in *; try discriminate.
  destruct (strictEqStr (lookup "type" mfields) "charging-station"); [|discriminate].
  destruct (get w "location") as [loc|e]; simpl; [|discriminate].
  intro H. injection H as <-. simpl. split; [reflexivity|].
  eexists. repeat split.
Qed.

Lemma chargingWaypointOf_none (w : value) :
  chargingWaypointOf w = Normal None -> marksChargingStop w = false.
Proof.
  unfold chargingWaypointOf, marksChargingStop.
  destruct (get w "metadata") as [md|e] eqn:Hmd; simpl; [|discriminate].
  destruct (truthy md) eqn:Ht; [|reflexivity].
  destruct md as [| | b | x | s | xs | mfields]; simpl in *; try discriminate; try reflexivity.
  destruct (strictEqStr (lookup "type" mfields) "charging-station"); [|reflexivity].
  destruct (get w "location") as [loc|e]; simpl; discriminate.
Qed.

Lemma collect_copies (l : list value) :
  forall cws,
    collect chargingWaypointOf l = Normal cws ->
    Forall2 copiesChargeFields (filter marksChargingStop l) cws.
Proof.
  induction l as [|w l IH]; simpl; intros cws Hc.
  - injection Hc as <-. constructor.
  - apply bind_normal in Hc as (o & Ho & Hc).
    apply bind_normal in Hc as (cws' & Hcws' & Hc).
    injection Hc as <-.
    destruct o as [cw|].
    + apply chargingWaypointOf_copies in Ho as [-> Hcopy].
      constructor; auto.
    + apply chargingWaypointOf_none in Ho as ->. auto.
Qed.

Lemma stepOf_missing_maneuver (step : value) :
  get step "maneuver" = Normal VUndefined -> exists e, stepOf step = Throw e.
Proof.
  intro H. unfold stepOf.
  do 5 through_bind. rewrite H. simpl. eauto.
Qed.

Lemma legOf_missing_steps (leg : value) :
  get leg "steps" = Normal VUndefined -> exists e, legOf leg = Throw e.
Proof.
  intro H. unfold legOf.
  do 3 through_bind. rewrite H. simpl. eauto.
Qed.

Lemma legOf_bad_step (leg step : value) (steps : list value) :
  get leg "steps" = Normal (VArr steps) -> In step steps ->
  (exists e, stepOf step = Throw e) -> exists e, legOf leg = Throw e.
Proof.
  intros H Hin Hs. unfold legOf.
  do 3 through_bind. rewrite H. simpl.
  destruct (mapM_throws stepOf steps step Hin Hs) as [e ->]. simpl. eauto.
Qed.

Lemma normalize_malformed (data route : value) (rest : list value) :
  get data "routes" = Normal (VArr (route :: rest)) ->
  Malformed route -> exists e, normalize data = Throw e.
Proof.
  intros Hr Hm. unfold normalize. rewrite Hr. simpl.
  do 6 through_bind.
  destruct Hm as [Hl | legs leg Hl Hin Hs | legs steps leg step Hl Hin Hs Hin' Hman];
    rewrite Hl; simpl; [eauto| |].
  - destruct (mapM_throws legOf legs leg Hin (legOf_missing_steps leg Hs)) as [e ->].
    simpl. eauto.
  - destruct (mapM_throws legOf legs leg Hin
                (legOf_bad_step leg step steps Hs Hin' (stepOf_missing_maneuver step Hman)))
      as [e ->].
    simpl. eauto.
Qed.

Lemma calculateEvRoute_total fetch a b c d vp :
  exists r log, calculateEvRoute fetch a b c d vp = (Normal r, log).
Proof.
  unfold calculateEvRoute, tryCatchLog.
  destruct (tryBody _); eauto.
Qed.

Lemma calculateEvRoute_caught fetch a b c d vp e :
  tryBody (fetch (buildUrl a b c d vp)) = Throw e ->
  calculateEvRoute fetch a b c d vp =
    (Normal None, [ {| ce_label := "Error calculating EV route:"; ce_error := e |} ]).
Proof.
  unfold calculateEvRoute, tryCatchLog. intros ->. reflexivity.
Qed.

(** C1, as the code has it.  Every entry of [chargingWaypoints] holds the
    [plug_type] (and the [charge_time]) of the provider's waypoint it was
    made from, unchanged: no connector-type mapping is applied.  In the
    scenario, the one charging waypoint with [plug_type: "type2"] and
    [charge_time: 1800] gives one entry with [plugType] ["type2"], and the
    total charging time is 1800 seconds. *)
Theorem plugType_copied_unchanged :
  (forall data r,
     normalize data = Normal (Some r) ->
     exists routes route waypointsSource,
       get data "routes" = Normal routes /\ get0 routes = Normal route /\
       waypointsSourceOf data route = Normal (VArr waypointsSource) /\
       Forall2 copiesChargeFields (filter marksChargingStop waypointsSource)
               (route_chargingWaypoints r)) /\
  (exists r,
     normalize scenarioResponse = Normal (Some r) /\
     map cw_plugType (route_chargingWaypoints r) = [VStr "type2"] /\
     calculateTotalChargingTime r = Some 1800%float).
Proof.
  split.
  - intros data r H.
    apply normalize_some in H as (routes & route & src & H1 & H2 & H3 & Hc & _).
    exists routes, route, src. repeat split; auto using collect_copies.
  - eexists. split; [vm_compute; reflexivity|]. split; vm_compute; reflexivity.
Qed.

(** C1, as the specification states it, fails on the scenario: the entry's
    [plugType] is the provider's ["type2"], not the ["ccs_combo_type2"] that
    the connector-type mapping gives for it. *)
Lemma scenario_plugType_not_canonical :
  exists r,
    normalize scenarioResponse = Normal (Some r) /\
    map cw_plugType (route_chargingWaypoints r) = [VStr "type2"] /\
    fst (ConnectorTypeMapper.canonicalize "type2") = "ccs_combo_type2" /\
    map cw_plugType (route_chargingWaypoints r)
      <> [VStr (fst (ConnectorTypeMapper.canonicalize "type2"))].
Proof.
  eexists. split; [vm_compute; reflexivity|].
  split; [vm_compute; reflexivity|].
  split; [vm_compute; reflexivity|].
  vm_compute. discriminate.
Qed.

(** C8.  In every route that [calculateEvRoute] produces,
    [chargingWaypoints] is the filtered projection of [waypoints]: the
    entries of the waypoints marked as charging stops, in the order of
    [waypoints], and nothing else; so every entry belongs to a waypoint of
    the route. *)
Theorem chargingWaypoints_filtered_projection fetch a b c d vp r log :
  calculateEvRoute fetch a b c d vp = (Normal (Some r), log) ->
  route_chargingWaypoints r = chargingStops (route_waypoints r) /\
  forall cw, In cw (route_chargingWaypoints r) ->
             exists w, In w (route_waypoints r) /\ chargingStop w = Some cw.
Proof.
  intro H. apply calculateEvRoute_some in H as (data & H).
  apply normalize_some in H as (routes & route & src & _ & _ & _ & Hc & Hm).
  assert (E : route_chargingWaypoints r = chargingStops (route_waypoints r))
    by (eapply collect_is_projection; eauto).
  split; [exact E|].
  rewrite E. clear. induction (route_waypoints r) as [|w ws IH]; simpl; [tauto|].
  intros cw Hin. destruct (chargingStop w) as [cw'|] eqn:Hw.
  - destruct Hin as [<-|Hin]; [eauto|].
    destruct (IH cw Hin) as (w' & Hin' & E). eauto.
  - destruct (IH cw Hin) as (w' & Hin' & E). eauto.
Qed.


(** C10.  [calculateEvRoute] never throws: whatever [fetch] does, the promise
    resolves.  A rejected [fetch], a response that is not 2xx, a body that is
    not JSON, and a route object without [legs], with a leg without [steps]
    or with a step without [maneuver], all resolve to the same null as a
    document with zero routes does. *)
Theorem calculateEvRoute_never_throws fetch a b c d vp :
  let url := buildUrl a b c d vp in
  let result := calculateEvRoute fetch a b c d vp in
  let noRoute := calculateEvRoute (answering noRoutes) a b c d vp in
  (exists r log, result = (Normal r, log)) /\
  noRoute = (Normal None, []) /\
  (forall e, tryBody (fetch url) = Throw e -> fst result = fst noRoute) /\
  (fetch url = Rejected -> fst result = fst noRoute) /\
  (forall status body,
     fetch url = Response status body -> ok status = false ->
     fst result = fst noRoute) /\
  (forall status,
     fetch url = Response status InvalidBody -> fst result = fst noRoute) /\
  (forall status data route rest,
     fetch url = Response status (JsonBody data) -> ok status = true ->
     get data "routes" = Normal (VArr (route :: rest)) -> Malformed route ->
     fst result = fst noRoute).
Proof.
  intros url result noRoute.
  assert (Hno : noRoute = (Normal None, [])) by reflexivity.
  assert (Hc : forall e, tryBody (fetch url) = Throw e -> fst result = fst noRoute).
  { intros e He. subst result. rewrite (calculateEvRoute_caught _ _ _ _ _ _ _ He), Hno.
    reflexivity. }
  split; [apply calculateEvRoute_total|].
  split; [exact Hno|].
  split; [exact Hc|].
  split; [|split; [|split]].
  - intro H. apply (Hc NetworkError). unfold tryBody. rewrite H. reflexivity.
  - intros status body H Hok.
    destruct (@throwApiError_throws (option EvRoute) status body) as [e He].
    apply (Hc e). unfold tryBody. rewrite H, Hok. exact He.
  - intros status H.
    destruct (ok status) eqn:Hok.
    + apply (Hc SyntaxError). unfold tryBody. rewrite H, Hok. reflexivity.
    + destruct (@throwApiError_throws (option EvRoute) status InvalidBody) as [e He].
      apply (Hc e). unfold tryBody. rewrite H, Hok. exact He.
  - intros status data route rest H Hok Hr Hm.
    destruct (normalize_malformed data route rest Hr Hm) as [e He].
    apply (Hc e). unfold tryBody. rewrite H, Hok. simpl. exact He.
Qed.

End RouteProperties.

Section RouteWitnesses.
Import Js Http EvRouting RouteSpec.

Lemma plugType_copied_unchanged_witness :
  exists r,
    normalize scenarioResponse = Normal (Some r) /\
    exists routes route waypointsSource,
      get scenarioResponse "routes" = Normal routes /\ get0 routes = Normal route /\
      waypointsSourceOf scenarioResponse route = Normal (VArr waypointsSource) /\
      Forall2 copiesChargeFields (filter marksChargingStop waypointsSource)
              (route_chargingWaypoints r).
Proof.
  eexists. split.
  - vm_compute. reflexivity.
  - apply (proj1 plugType_copied_unchanged). vm_compute. reflexivity.
Defined.

Lemma chargingWaypoints_filtered_projection_witness :
  exists r,
    calculateEvRoute (answering scenarioResponse) 40.7128 (-74.006) 38.9072 (-77.0369)
                     noVehicleParams = (Normal (Some r), []) /\
    route_chargingWaypoints r = chargingStops (route_waypoints r).
Proof.
  eexists. split.
  - vm_compute. reflexivity.
  - eapply proj1.
    apply (chargingWaypoints_filtered_projection (answering scenarioResponse)
             40.7128 (-74.006) 38.9072 (-77.0369) noVehicleParams _ []).
    vm_compute. reflexivity.
Defined.


Lemma calculateEvRoute_never_throws_witness :
  fst (calculateEvRoute (answering malformedResponse) 40.7128 (-74.006) 38.9072 (-77.0369)
                        noVehicleParams) = Normal None /\
  fst (calculateEvRoute (fun _ => Rejected) 40.7128 (-74.006) 38.9072 (-77.0369)
                        noVehicleParams) = Normal None /\
  fst (calculateEvRoute (fun _ => Response 500 (JsonBody (VObj [("error", VStr "Internal server error")])))
                        40.7128 (-74.006) 38.9072 (-77.0369) noVehicleParams) = Normal None.
Proof.
  split; [|split].
  - apply (proj2 (proj2 (proj2 (proj2 (proj2 (proj2
             (calculateEvRoute_never_throws (answering malformedResponse)
                40.7128 (-74.006) 38.9072 (-77.0369) noVehicleParams))))))
             200%Z malformedResponse routeWithoutLegs []);
      try reflexivity.
    apply MissingLegs. reflexivity.
  - apply (proj1 (proj2 (proj2 (proj2
             (calculateEvRoute_never_throws (fun _ => Rejected)
                40.7128 (-74.006) 38.9072 (-77.0369) noVehicleParams))))).
    reflexivity.
  - apply (proj1 (proj2 (proj2 (proj2 (proj2
             (calculateEvRoute_never_throws
                (fun _ => Response 500 (JsonBody (VObj [("error", VStr "Internal server error")])))
                40.7128 (-74.006) 38.9072 (-77.0369) noVehicleParams)))))
             500%Z (JsonBody (VObj [("error", VStr "Internal server error")])));
      reflexivity.
Defined.

End RouteWitnesses.

(* ------------------------------------------------------------------ *)
(** ** The station cache and its coordinator                           *)
(* ------------------------------------------------------------------ *)

Section CoordinatorProperties.
Import Js Http ChargingStations MapWrapper CoordinatorSpec.

(** *** Numbers *)

Lemma SFltb_not_SFleb (a b : spec_float) : SFltb a b = true -> SFleb b a = false.
Proof.
  unfold SFltb, SFleb.
  destruct a as [sa|sa| |sa ma ea], b as [sb|sb| |sb mb eb]; simpl;
    try discriminate; try reflexivity;
    try (destruct sa; simpl; try discriminate; try reflexivity);
    try (destruct sb; simpl; try discriminate; try reflexivity).
  - rewrite (Z.compare_antisym ea eb).
    destruct (ea ?= eb)%Z; simpl; try discriminate; try reflexivity.
    pose proof (Pos.compare_cont_antisym ma mb Eq) as H. simpl in H. rewrite <- H.
    destruct (Pos.compare_cont Eq ma mb); simpl; try discriminate; reflexivity.
  - rewrite (Z.compare_antisym ea eb).
    destruct (ea ?= eb)%Z; simpl; try discriminate; try reflexivity.
    pose proof (Pos.compare_cont_antisym ma mb Eq) as H. simpl in H. rewrite <- H.
    destruct (Pos.compare_cont Eq ma mb); simpl; try discriminate; reflexivity.
Qed.

Lemma ltb_not_leb (x y : float) : (x <? y)%float = true -> (y <=? x)%float = false.
Proof.
  rewrite ltb_spec, leb_spec. apply SFltb_not_SFleb.
Qed.

(** *** The cache object *)


Lemma assign_twice (c : Cache) (k : string) (v : ChargingStation) :
  assign (assign c k v) k v = assign c k v.
Proof.
  induction c as [|[k' v'] c IH]; simpl.
  - rewrite String.eqb_refl. reflexivity.
  - destruct (String.eqb k k') eqn:E; simpl; rewrite E; [reflexivity|].
    rewrite IH. reflexivity.
Qed.



Lemma has_assign_mono (c : Cache) (k k' : string) (v : ChargingStation) :
  has c k = true -> has (assign c k' v) k = true.
Proof.
  induction c as [|[k0 v0] c IH]; simpl; [discriminate|].
  intro H. destruct (String.eqb k' k0); simpl; [exact H|].
  destruct (String.eqb k k0); simpl in *; auto.
Qed.

Lemma has_spread_mono (new c : Cache) (k : string) :
  has c k = true -> has (spread c new) k = true.
Proof.
  unfold spread. revert c.
  induction new as [|[k' v'] new IH]; simpl; intros c H; [exact H|].
  apply IH, has_assign_mono, H.
Qed.

Lemma lookup_assign_other (c : Cache) (k k' : string) (v : ChargingStation) :
  String.eqb k k' = false -> lookupStation (assign c k' v) k = lookupStation c k.
Proof.
  intro H. induction c as [|[k0 v0] c IH]; simpl.
  - rewrite H. reflexivity.
  - destruct (String.eqb k' k0) eqn:E; simpl.
    + apply String.eqb_eq in E. subst k0. rewrite H. reflexivity.
    + destruct (String.eqb k k0); auto.
Qed.

Lemma lookup_spread_other (new c : Cache) (k : string) :
  has new k = false -> lookupStation (spread c new) k = lookupStation c k.
Proof.
  unfold spread. revert c.
  induction new as [|[k' v'] new IH]; simpl; intros c H; [reflexivity|].
  apply orb_false_iff in H as [H1 H2].
  rewrite (IH _ H2). apply lookup_assign_other, H1.
Qed.

Lemma has_assign_other (c : Cache) (k k' : string) (v : ChargingStation) :
  String.eqb k k' = false -> has (assign c k' v) k = has c k.
Proof.
  intro H. induction c as [|[k0 v0] c IH]; simpl.
  - rewrite H. reflexivity.
  - destruct (String.eqb k' k0) eqn:E; simpl.
    + reflexivity.
    + rewrite IH. reflexivity.
Qed.

(** The loop collects only stations whose key the closed-over cache lacks. *)
Lemma collectNew_only_new (closure : Cache) (fetched : list ChargingStation) (k : string) :
  has closure k = true -> has (fst (collectNew closure fetched)) k = false.
Proof.
  intro H. unfold collectNew.
  assert (G : forall acc : Cache * bool,
             has (fst acc) k = false ->
             has (fst (fold_left
                         (fun (acc : Cache * bool) station =>
                            let (newStations, cacheUpdated) := acc in
                            if negb (has closure (cacheKey station))
                            then (assign newStations (cacheKey station) station, true)
                            else (newStations, cacheUpdated))
                         fetched acc)) k = false).
  { induction fetched as [|st fetched IH]; simpl; intros [new upd] Hacc; [exact Hacc|].
    apply IH. destruct (has closure (cacheKey st)) eqn:E; simpl; [exact Hacc|].
    rewrite has_assign_other; [exact Hacc|].
    destruct (String.eqb_spec k (cacheKey st)); [congruence|reflexivity]. }
  apply G. reflexivity.
Qed.

(** With the current cache as the closed-over one, an entry that is present
    keeps its station. *)
Lemma merge_first_write_wins (cache : Cache) (batch : list ChargingStation) (k : string) :
  has cache k = true -> lookupStation (merge cache batch) k = lookupStation cache k.
Proof.
  intro H. unfold merge, mergeInto.
  pose proof (collectNew_only_new cache batch k H) as Hn.
  destruct (collectNew cache batch) as [new [|]]; simpl in *; [|reflexivity].
  apply lookup_spread_other, Hn.
Qed.

Lemma mergeInto_keeps_keys (closure prev : Cache) (batch : list ChargingStation) (k : string) :
  has prev k = true -> has (mergeInto closure prev batch) k = true.
Proof.
  intro H. unfold mergeInto.
  destruct (collectNew closure batch) as [new [|]]; [|exact H].
  apply has_spread_mono, H.
Qed.

(** Once a callback has written [s] under its key, merging [s] again changes
    nothing, whatever cache the second callback closed over. *)
Lemma mergeInto_again (closure1 closure2 prev : Cache) (s : ChargingStation) :
  has closure1 (cacheKey s) = false ->
  mergeInto closure2 (mergeInto closure1 prev [s]) [s] = mergeInto closure1 prev [s].
Proof.
  intro H. unfold mergeInto, collectNew. simpl. rewrite H. simpl.
  destruct (has closure2 (cacheKey s)); simpl; [reflexivity|].
  apply assign_twice.
Qed.

(** *** Timers *)

(** Unfolding the state setters. *)
Ltac state_simpl :=
  unfold setIsLoading, setError, setStationsCache, setMapView, withRef, withTimers,
    withNow, withMounted, withRequests, consoleError, clearTimeout, sendRequest in *;
  repeat match goal with
         | |- context [if mounted ?s then _ else _] => destruct (mounted s) eqn:?
         end;
  simpl in *.

Lemma wf_same (s s' : State) : sameTimers s s' -> wf s -> wf s'.
Proof.
  intros (Ht & Hn & Hr) (H1 & H2 & H3). unfold wf. rewrite Ht, Hn, Hr. auto.
Qed.

Lemma sameTimers_trans s1 s2 s3 : sameTimers s1 s2 -> sameTimers s2 s3 -> sameTimers s1 s3.
Proof.
  intros (A & B & C) (D & E & F). unfold sameTimers. rewrite D, E, F. auto.
Qed.

Lemma same_setIsLoading b s : sameTimers s (setIsLoading b s).
Proof. unfold sameTimers; state_simpl; auto. Qed.
Lemma same_setError e s : sameTimers s (setError e s).
Proof. unfold sameTimers; state_simpl; auto. Qed.
Lemma same_setStationsCache u s : sameTimers s (setStationsCache u s).
Proof. unfold sameTimers; state_simpl; auto. Qed.
Lemma same_setMapView c z s : sameTimers s (setMapView c z s).
Proof. unfold sameTimers; state_simpl; auto. Qed.
Lemma same_consoleError e s : sameTimers s (consoleError e s).
Proof. unfold sameTimers; state_simpl; auto. Qed.
Lemma same_withRequests a b s : sameTimers s (withRequests a b s).
Proof. unfold sameTimers; state_simpl; auto. Qed.
Lemma same_withNow t s : sameTimers s (withNow t s).
Proof. unfold sameTimers; state_simpl; auto. Qed.
Lemma same_withMounted b s : sameTimers s (withMounted b s).
Proof. unfold sameTimers; state_simpl; auto. Qed.
Lemma same_sendRequest a b c d s : sameTimers s (sendRequest a b c d s).
Proof. unfold sameTimers; state_simpl; auto. Qed.

Lemma In_dropTimer i t ts : In t (dropTimer i ts) <-> In t ts /\ timer_id t <> i.
Proof.
  unfold dropTimer. rewrite filter_In.
  destruct (Nat.eqb_spec (timer_id t) i); simpl; intuition congruence.
Qed.

Lemma NoDup_ids_drop i ts :
  NoDup (map timer_id ts) -> NoDup (map timer_id (dropTimer i ts)).
Proof.
  induction ts as [|t ts IH]; simpl; intro H; [constructor|].
  inversion H as [|? ? Hn Hd]; subst.
  destruct (negb (Nat.eqb (timer_id t) i)); simpl; auto.
  constructor; auto.
  intro Hin. apply Hn. apply in_map_iff in Hin as (t' & E & Hin).
  apply in_map_iff. exists t'. split; auto.
  apply In_dropTimer in Hin. tauto.
Qed.

Lemma wf_clearTimeout i s : wf s -> wf (clearTimeout i s).
Proof.
  intros (H1 & H2 & H3). unfold wf, clearTimeout; simpl.
  split; [apply NoDup_ids_drop; auto|].
  split; intros t Hin; apply In_dropTimer in Hin as [Hin _]; auto.
Qed.

Lemma debounceTimers_clearTimeout i s :
  debounceTimers (clearTimeout i s) = dropTimer i (debounceTimers s).
Proof.
  unfold debounceTimers, clearTimeout, dropTimer; simpl.
  induction (timers s) as [|t ts IH]; simpl; [reflexivity|].
  destruct (negb (Nat.eqb (timer_id t) i)) eqn:E1, (isDebounce t) eqn:E2; simpl;
    rewrite ?E1, ?E2, IH; reflexivity.
Qed.

Lemma filter_nil_iff {A} (f : A -> bool) (l : list A) :
  filter f l = [] <-> forall x, In x l -> f x = false.
Proof.
  induction l as [|a l IH]; simpl; [tauto|].
  destruct (f a) eqn:E; split.
  - discriminate.
  - intro H. specialize (H a (or_introl eq_refl)). congruence.
  - intros H x [<-|Hx]; auto. apply IH; auto.
  - intro H. apply IH. auto.
Qed.

Lemma wf_clearDebounceTimer s : wf s -> wf (clearDebounceTimer s).
Proof.
  unfold clearDebounceTimer. destruct (debounceTimerRef s); auto using wf_clearTimeout.
Qed.

Lemma no_debounce_after_clear s :
  wf s -> debounceTimers (clearDebounceTimer s) = [].
Proof.
  intros (_ & _ & H3). unfold clearDebounceTimer.
  destruct (debounceTimerRef s) as [i|] eqn:Hr.
  - rewrite debounceTimers_clearTimeout. apply filter_nil_iff.
    intros t Hin. apply filter_In in Hin as [Hin Hd].
    specialize (H3 t Hin Hd). injection H3 as <-.
    rewrite Nat.eqb_refl. reflexivity.
  - apply filter_nil_iff. intros t Hin.
    destruct (isDebounce t) eqn:Hd; auto.
    specialize (H3 t Hin Hd). discriminate.
Qed.

Lemma clearDebounceTimer_fields s :
  nextTimer (clearDebounceTimer s) = nextTimer s /\
  debounceTimerRef (clearDebounceTimer s) = debounceTimerRef s /\
  requests (clearDebounceTimer s) = requests s /\
  inFlight (clearDebounceTimer s) = inFlight s /\
  stationsCache (clearDebounceTimer s) = stationsCache s /\
  now (clearDebounceTimer s) = now s /\
  mounted (clearDebounceTimer s) = mounted s /\
  error (clearDebounceTimer s) = error s.
Proof.
  unfold clearDebounceTimer. destruct (debounceTimerRef s) eqn:E; simpl; rewrite ?E; repeat split.
Qed.

(** The immediate path keeps the invariant and leaves no debounce timer. *)
Lemma wf_fetchStations_immediate props lat lng radius s :
  wf s -> wf (fetchStations props lat lng radius true s).
Proof.
  intro H. unfold fetchStations.
  destruct (negb (useRealData props)); auto.
  eapply wf_same; [|apply wf_clearDebounceTimer, H].
  eapply sameTimers_trans; [apply same_setIsLoading|].
  eapply sameTimers_trans; [apply same_setError|].
  apply same_sendRequest.
Qed.

Lemma fetchStations_debounced props lat lng radius s :
  useRealData props = true ->
  let s' := fetchStations props lat lng radius false s in
  timers s' = (timers (clearDebounceTimer s)
                 ++ [loadingTimerOf s; debounceTimerOf lat lng radius s])%list /\
  nextTimer s' = S (S (nextTimer s)) /\
  debounceTimerRef s' = Some (S (nextTimer s)) /\
  requests s' = requests s /\ inFlight s' = inFlight s /\
  stationsCache s' = stationsCache s /\ now s' = now s /\ mounted s' = mounted s /\
  error s' = error s.
Proof.
  intros Hu s'. subst s'. unfold fetchStations. rewrite Hu. simpl.
  destruct (clearDebounceTimer_fields s) as (E1 & E2 & E3 & E4 & E5 & E6 & E7 & E8).
  unfold setTimeout, withRef, withTimers, loadingTimerOf, debounceTimerOf. simpl.
  rewrite E1, E3, E4, E5, E6, E7, E8, <- app_assoc. simpl. repeat split.
Qed.


Lemma wf_fetchStations_debounced props lat lng radius s :
  wf s -> wf (fetchStations props lat lng radius false s).
Proof.
  intro Hwf. destruct (useRealData props) eqn:Hu.
  2:{ unfold fetchStations. rewrite Hu. exact Hwf. }
  destruct (fetchStations_debounced props lat lng radius s Hu) as (Ht & Hn & Hr & _).
  pose proof (no_debounce_after_clear s Hwf) as Hnone.
  destruct (wf_clearDebounceTimer s Hwf) as (H1 & H2 & H3).
  destruct (clearDebounceTimer_fields s) as (E1 & _).
  rewrite E1 in H2.
  unfold wf. rewrite Ht, Hn, Hr.
  split; [|split].
  - rewrite map_app. simpl.
    apply NoDup_app; [exact H1| |].
    + constructor; [simpl; intros [E|[]]; lia|]. constructor; [simpl; tauto|constructor].
    + intros i Hi [E|[E|[]]]; apply in_map_iff in Hi as (t & Et & Hin);
        specialize (H2 t Hin); simpl in E; lia.
  - intros t Hin. apply in_app_or in Hin as [Hin|[<-|[<-|[]]]]; simpl; auto.
    specialize (H2 t Hin). lia.
  - intros t Hin Hd. apply in_app_or in Hin as [Hin|[<-|[<-|[]]]]; simpl in *.
    + pose proof (proj1 (filter_nil_iff isDebounce _) Hnone t Hin). congruence.
    + discriminate.
    + reflexivity.
Qed.

Lemma wf_mountEffect props s : wf s -> wf (mountEffect props s).
Proof.
  intro H. unfold mountEffect. destruct (useRealData props); auto.
  apply wf_fetchStations_immediate, H.
Qed.

Lemma wf_handleMapMove props c z s : wf s -> wf (handleMapMove props c z s).
Proof.
  intro H. unfold handleMapMove.
  assert (H' : wf (setMapView c z s)) by (eapply wf_same; [apply same_setMapView|exact H]).
  destruct (12 <=? z)%float; auto using wf_fetchStations_debounced.
Qed.

Lemma wf_fire action s : wf s -> wf (fire action s).
Proof.
  intro H. destruct action as [|lat lng radius closure lt]; simpl.
  - eapply wf_same; [apply same_setIsLoading|exact H].
  - eapply wf_same; [|apply (wf_clearTimeout lt), H].
    eapply sameTimers_trans; [apply same_setIsLoading|].
    eapply sameTimers_trans; [apply same_setError|].
    apply same_sendRequest.
Qed.

Lemma wf_settle props p outcome s : wf s -> wf (settle props p outcome s).
Proof.
  intro H. unfold settle.
  destruct (fetchChargingStations outcome) as [fetched logged].
  assert (H0 : wf (consoleError logged s))
    by (eapply wf_same; [apply same_consoleError|exact H]).
  destruct (tryBlock (req_closure p) fetched) as [[newStations [|]]|err].
  - assert (H1 : wf (setIsLoading false
                       (setStationsCache (fun prevCache => spread prevCache newStations)
                          (consoleError logged s)))).
    { eapply wf_same; [|exact H0].
      eapply sameTimers_trans; [apply same_setStationsCache|apply same_setIsLoading]. }
    destruct (mounted (consoleError logged s)); auto using wf_mountEffect.
  - eapply wf_same; [apply same_setIsLoading|exact H0].
  - eapply wf_same; [|exact H0].
    eapply sameTimers_trans; [apply same_consoleError|].
    eapply sameTimers_trans; [apply same_setError|apply same_setIsLoading].
Qed.

Lemma wf_step props s e s' : wf s -> step props s e = Some s' -> wf s'.
Proof.
  intros H Hs. destruct e as [c z|ms|i|i outcome|]; simpl in Hs.
  - destruct (mounted s); [|discriminate]. injection Hs as <-.
    apply wf_handleMapMove, H.
  - destruct (0 <=? ms)%Z; [|discriminate]. injection Hs as <-.
    eapply wf_same; [apply same_withNow|exact H].
  - destruct (findTimer i (timers s)) as [t|]; [|discriminate].
    destruct (timer_due t <=? now s)%Z; [|discriminate]. injection Hs as <-.
    apply wf_fire, wf_clearTimeout, H.
  - destruct (findPending i (inFlight s)) as [p|]; [|discriminate]. injection Hs as <-.
    apply wf_settle. eapply wf_same; [apply same_withRequests|exact H].
  - destruct (mounted s); [|discriminate]. injection Hs as <-.
    unfold unmount. eapply wf_same; [apply same_withMounted|].
    apply wf_clearDebounceTimer, H.
Qed.


Lemma wf_init props : wf (init props).
Proof.
  unfold init. apply wf_mountEffect.
  unfold wf; simpl. split; [constructor|]. split; intros t [].
Qed.


Lemma fetchStations_cache props lat lng radius immediate s :
  stationsCache (fetchStations props lat lng radius immediate s) = stationsCache s.
Proof.
  unfold fetchStations.
  destruct (clearDebounceTimer_fields s) as (_ & _ & _ & _ & E & _).
  destruct (negb (useRealData props)); [reflexivity|].
  destruct immediate; unfold setTimeout; state_simpl; exact E.
Qed.

Lemma mountEffect_cache props s : stationsCache (mountEffect props s) = stationsCache s.
Proof.
  unfold mountEffect. destruct (useRealData props); [apply fetchStations_cache|reflexivity].
Qed.



Lemma findTimer_some i ts t :
  findTimer i ts = Some t -> In t ts /\ timer_id t = i.
Proof.
  unfold findTimer. intro H. apply find_some in H as [Hin E].
  apply Nat.eqb_eq in E. auto.
Qed.










Lemma setMapView_fields c z s :
  requests (setMapView c z s) = requests s /\ now (setMapView c z s) = now s /\
  timers (setMapView c z s) = timers s /\ inFlight (setMapView c z s) = inFlight s /\
  debounceTimerRef (setMapView c z s) = debounceTimerRef s /\
  stationsCache (setMapView c z s) = stationsCache s /\
  nextTimer (setMapView c z s) = nextTimer s /\
  error (setMapView c z s) = error s /\ mounted (setMapView c z s) = mounted s.
Proof. state_simpl; repeat split; auto. Qed.


(** *** What the cache keeps, and what a cache update causes *)

Lemma settle_keeps_keys props p outcome s k :
  has (stationsCache s) k = true -> has (stationsCache (settle props p outcome s)) k = true.
Proof.
  intro H. unfold settle.
  destruct (fetchChargingStations outcome) as [fetched logged].
  destruct (tryBlock (req_closure p) fetched) as [[newStations [|]]|err].
  - destruct (mounted (consoleError logged s)) eqn:Hm.
    + rewrite mountEffect_cache. state_simpl; try congruence.
      apply has_spread_mono, H.
    + state_simpl; congruence.
  - state_simpl; exact H.
  - state_simpl; exact H.
Qed.

(** No event removes a key from the cache. *)
Lemma step_keeps_keys props s e s' k :
  step props s e = Some s' ->
  has (stationsCache s) k = true -> has (stationsCache s') k = true.
Proof.
  intros Hs H. destruct e as [c z|ms|i|i outcome|]; simpl in Hs.
  - destruct (mounted s) eqn:Hm; [|discriminate]. injection Hs as <-.
    unfold handleMapMove.
    destruct (12 <=? z)%float; [rewrite fetchStations_cache|]; state_simpl; try congruence; exact H.
  - destruct (0 <=? ms)%Z; [|discriminate]. injection Hs as <-. exact H.
  - destruct (findTimer i (timers s)) as [t|]; [|discriminate].
    destruct (timer_due t <=? now s)%Z; [|discriminate]. injection Hs as <-.
    destruct (timer_action t); simpl; state_simpl; exact H.
  - destruct (findPending i (inFlight s)) as [p|]; [|discriminate]. injection Hs as <-.
    apply settle_keeps_keys. exact H.
  - destruct (mounted s); [|discriminate]. injection Hs as <-.
    unfold unmount. simpl.
    destruct (clearDebounceTimer_fields s) as (_ & _ & _ & _ & E & _). rewrite E. exact H.
Qed.

Lemma run_keeps_keys props events : forall s s' k,
  run props s events = Some s' ->
  has (stationsCache s) k = true -> has (stationsCache s') k = true.
Proof.
  induction events as [|e events IH]; simpl; intros s s' k Hr H.
  - injection Hr as <-. exact H.
  - destruct (step props s e) as [s1|] eqn:Hs; [|discriminate].
    eapply IH; [exact Hr|]. eapply step_keeps_keys; eauto.
Qed.



(** *** The properties of the specification *)




(** C3, as the code has it.  A move to a zoom strictly below 12 sends no
    request and sets no timer; it leaves the timers as they are, including a
    debounce timer that is set. *)
Theorem low_zoom_issues_no_fetch props s c z :
  (z <? 12)%float = true -> mounted s = true ->
  exists s',
    step props s (MapMove c z) = Some s' /\
    requests s' = requests s /\ inFlight s' = inFlight s /\
    timers s' = timers s /\ debounceTimerRef s' = debounceTimerRef s /\
    debounceTimers s' = debounceTimers s /\ stationsCache s' = stationsCache s.
Proof.
  intros Hz Hm. exists (setMapView c z s).
  apply ltb_not_leb in Hz.
  simpl. rewrite Hm. unfold handleMapMove. rewrite Hz.
  destruct (setMapView_fields c z s) as (F1 & F2 & F3 & F4 & F5 & F6 & F7 & F8 & F9).
  unfold debounceTimers. rewrite F3. repeat split; auto.
Qed.

(** C3, as the specification states it, fails.  After a pan at zoom 15 and a
    pan out to zoom 10, the debounce timer of the first pan is still set, and
    when it fires the request for the first pan's centre is sent. *)
Lemma low_zoom_keeps_timer_armed :
  exists s1 s2,
    run defaultProps (init defaultProps) (firstn 3 panOut) = Some s1 /\
    map timer_id (debounceTimers s1) = [2] /\
    List.length (requests s1) = 1 /\
    run defaultProps (init defaultProps) panOut = Some s2 /\
    requests s2 = [buildUrl 38.9072 (-77.0369) 50 (Some stationOptions);
                   buildUrl 40 (-74) 50 (Some stationOptions)].
Proof.
  eexists. eexists.
  split; [vm_compute; reflexivity|].
  split; [vm_compute; reflexivity|].
  split; [vm_compute; reflexivity|].
  split; vm_compute; reflexivity.
Qed.


(** The station query never throws, and every failure of the collaborator
    becomes an empty list of stations with one line on the console. *)
Lemma fetchChargingStations_failure outcome :
  outcome = Rejected \/ (exists status body, outcome = Failure status body) \/
  outcome = Success NotJson ->
  exists e, fetchChargingStations outcome =
            (Normal (FetchedStations []),
             [ {| ce_label := "Error fetching charging stations:"; ce_error := e |} ]).
Proof.
  intros [->|[(status & body & ->)| ->]]; unfold fetchChargingStations; simpl; eauto.
  unfold throwApiError.
  destruct (json body) as [ed|]; simpl; [|eauto].
  destruct (get ed "error") as [err|]; simpl; [|eauto].
  destruct (truthy err); simpl; eauto.
Qed.

(** In any state, a failure of the station query changes neither the error
    shown to the user, nor the cache, nor the requests, nor the timers. *)
Lemma station_query_failure_is_silent props s i p outcome :
  findPending i (inFlight s) = Some p ->
  outcome = Rejected \/ (exists status body, outcome = Failure status body) \/
  outcome = Success NotJson ->
  exists s',
    step props s (FetchSettles i outcome) = Some s' /\
    error s' = error s /\ stationsCache s' = stationsCache s /\
    requests s' = requests s /\ timers s' = timers s.
Proof.
  intros Hp Hfail. simpl. rewrite Hp. eexists. split; [reflexivity|].
  destruct (fetchChargingStations_failure outcome Hfail) as [e He].
  unfold settle. rewrite He. simpl. state_simpl; auto.
Qed.

(** C5, evaluated on the code.  When the station query fails (rejected
    [fetch], response that is not 2xx, body that is not JSON), the cache, the
    requests and the timers stay as they are, the continuation does not
    throw, and one line goes to the console; but no error is shown to the
    user: [error] stays null. *)
Lemma station_query_error_not_surfaced :
  Forall (fun outcome =>
            exists s',
              step defaultProps (init defaultProps) (FetchSettles 0 outcome) = Some s' /\
              error s' = None /\
              stationsCache s' = stationsCache (init defaultProps) /\
              requests s' = requests (init defaultProps) /\
              timers s' = [] /\ inFlight s' = [] /\
              List.length (console s') = 1)
         collaboratorErrors.
Proof.
  repeat constructor; eexists; (split; [vm_compute; reflexivity|]);
    repeat split; vm_compute; reflexivity.
Qed.

(** C7, evaluated on the code.  The entry of station A, present in the cache
    under its key, is replaced by a later response for the same key when that
    response belongs to a request sent before the entry was written: the
    callback tests the cache it closed over, not the current one.  The keys
    of the cache stay the same. *)
Lemma stale_response_overwrites_entry :
  exists s1 s2,
    run defaultProps (init defaultProps) overlap = Some s1 /\
    lookupStation (stationsCache s1) keyA = Some stationA /\
    step defaultProps s1 (FetchSettles 1 (Success (Json (FetchedStations [stationA'])))) = Some s2 /\
    lookupStation (stationsCache s2) keyA = Some stationA' /\
    stationA' <> stationA /\
    keys (stationsCache s2) = keys (stationsCache s1).
Proof.
  eexists. eexists.
  split; [vm_compute; reflexivity|].
  split; [vm_compute; reflexivity|].
  split; [vm_compute; reflexivity|].
  split; [vm_compute; reflexivity|].
  split; [|vm_compute; reflexivity].
  intro H. apply (f_equal available) in H. discriminate.
Qed.

(** *** Witnesses *)


Lemma low_zoom_issues_no_fetch_witness :
  exists s',
    step defaultProps (init defaultProps) (MapMove (40.5, -74.5)%float 10) = Some s' /\
    requests s' = requests (init defaultProps) /\
    inFlight s' = inFlight (init defaultProps) /\
    timers s' = timers (init defaultProps) /\
    debounceTimerRef s' = debounceTimerRef (init defaultProps) /\
    debounceTimers s' = debounceTimers (init defaultProps) /\
    stationsCache s' = stationsCache (init defaultProps).
Proof.
  apply (low_zoom_issues_no_fetch defaultProps (init defaultProps) (40.5, -74.5)%float 10);
    vm_compute; reflexivity.
Defined.


End CoordinatorProperties.

(* ------------------------------------------------------------------ *)
(** ** The EV routing handler *)
(* ------------------------------------------------------------------ *)

Section ConnectorProperties.
Import Js Http ConnectorTypeMapper NextServer EvRouteApi HandlerSpec.

Lemma includes_In (xs : list string) (x : string) : includes xs x = true <-> In x xs.
Proof.
  unfold includes. rewrite existsb_exists. split.
  - intros (y & Hin & E). apply String.eqb_eq in E. subst. exact Hin.
  - intro H. exists x. split; [exact H|apply String.eqb_refl].
Qed.

Lemma canonicalize_in_validTypes (type : string) :
  In (fst (canonicalize type)) validTypes.
Proof.
  unfold canonicalize.
  destruct (_ || _); [simpl; tauto|].
  destruct (_ || _); [simpl; tauto|].
  destruct (String.eqb _ "ccs_type1"); [simpl; tauto|].
  destruct (String.eqb _ "ccs_type2"); [simpl; tauto|].
  destruct (includes validTypes (trim type)) eqn:E; [|simpl; tauto].
  apply includes_In in E. exact E.
Qed.

(** X1.  Whatever the text, the mapping gives one of the four types that
    Mapbox knows, and mapping its result again changes nothing and warns
    about nothing. *)
Theorem canonicalize_valid_and_stable (type : string) :
  In (fst (canonicalize type)) validTypes /\
  canonicalize (fst (canonicalize type)) = (fst (canonicalize type), []).
Proof.
  split; [apply canonicalize_in_validTypes|].
  destruct (canonicalize_in_validTypes type) as [H|[H|[H|[H|[]]]]];
    rewrite <- H; reflexivity.
Qed.

Lemma removeDuplicates_In (xs : list string) : forall seen x,
  In x (removeDuplicates seen xs) <-> In x xs /\ ~ In x seen.
Proof.
  induction xs as [|y ys IH]; simpl; intros seen x; [tauto|].
  destruct (includes seen y) eqn:E.
  - apply includes_In in E. rewrite IH. split.
    + tauto.
    + intros [[->|H] Hn]; tauto.
  - assert (Hy : ~ In y seen) by (rewrite <- includes_In, E; discriminate).
    simpl. rewrite IH. simpl. split.
    + intros [->|[H Hn]]; [tauto|]. split; [tauto|]. intro; apply Hn; tauto.
    + intros [[->|H] Hn]; [tauto|].
      destruct (string_dec y x) as [->|Hne]; [tauto|]. right. split; [exact H|].
      intros [E'|E']; tauto.
Qed.

Lemma removeDuplicates_NoDup (xs : list string) : forall seen,
  NoDup (removeDuplicates seen xs).
Proof.
  induction xs as [|y ys IH]; simpl; intro seen; [constructor|].
  destruct (includes seen y); [apply IH|].
  constructor; [|apply IH].
  rewrite removeDuplicates_In. simpl. tauto.
Qed.

Lemma splitComma_nonempty (s : string) : splitComma s <> [].
Proof.
  destruct s as [|c rest]; simpl; [discriminate|].
  destruct (Ascii.eqb c ","); [discriminate|].
  destruct (splitComma rest); discriminate.
Qed.

(** X2.  For every query, the handler adds an [ev_connector_types] parameter, and
    its list is not empty, has no duplicates, holds only valid types and
    holds the canonical type of every piece of the request's list. *)
Theorem evConnectorTypes_sound (searchParams : SearchParams) :
  exists types,
    fst (evConnectorTypes searchParams) = Some types /\
    types <> [] /\ NoDup types /\
    (forall t, In t types -> In t validTypes) /\
    (forall requested piece,
       orElse (get searchParams "connector_types") (get searchParams "connectorTypes")
         = Some requested ->
       requested <> "" ->
       In piece (splitComma requested) -> In (fst (canonicalize piece)) types).
Proof.
  unfold evConnectorTypes.
  destruct (orElse _ _) as [requested|] eqn:Ho.
  2:{ exists ["ccs_combo_type2"; "ccs_combo_type1"]. simpl.
      split; [reflexivity|]. split; [discriminate|].
      split; [repeat constructor; simpl; intuition discriminate|].
      split; [intros t [<-|[<-|[]]]; simpl; tauto|discriminate]. }
  unfold given. simpl.
  destruct (String.eqb requested "") eqn:Ee; simpl.
  { apply String.eqb_eq in Ee. subst.
    exists ["ccs_combo_type2"; "ccs_combo_type1"]. simpl.
    split; [reflexivity|]. split; [discriminate|].
    split; [repeat constructor; simpl; intuition discriminate|].
    split; [intros t [<-|[<-|[]]]; simpl; tauto|].
    intros r p E. injection E as <-. tauto. }
  rewrite map_map.
  set (types := removeDuplicates [] (map (fun x => fst (canonicalize x)) (splitComma requested))).
  assert (Hin : forall t, In t types <->
                          In t (map (fun x => fst (canonicalize x)) (splitComma requested))).
  { intro t. unfold types. rewrite removeDuplicates_In. simpl. tauto. }
  assert (Hne : types <> []).
  { destruct (splitComma requested) as [|p ps] eqn:Es; [destruct (splitComma_nonempty _ Es)|].
    intro E. assert (In (fst (canonicalize p)) types) by (apply Hin; simpl; auto).
    rewrite E in H. destruct H. }
  exists types. destruct types as [|t0 ts] eqn:Et; [congruence|].
  split; [reflexivity|]. split; [discriminate|].
  split; [rewrite <- Et; apply removeDuplicates_NoDup|].
  split.
  - intros t Ht. apply Hin in Ht. apply in_map_iff in Ht as (p & <- & _).
    apply canonicalize_in_validTypes.
  - intros r p E _ Hp. injection E as <-. apply Hin. apply in_map_iff. eauto.
Qed.





(** The token check of the handler cannot fail. *)
Lemma token_always_given (env : option string) : tokenGiven (MAPBOX_SERVER_TOKEN env) = true.
Proof.
  unfold MAPBOX_SERVER_TOKEN. destruct env as [s|]; [|reflexivity].
  destruct (truthy (VStr s)) eqn:E; simpl; auto.
Qed.

Lemma json_error_status {B} (b : B) (s : Z) :
  (300 <= s <= 599)%Z -> s <> 304%Z -> json b s = Normal {| status := s; body := b |}.
Proof.
  intros H Hn. unfold json, nullBodyStatus.
  destruct (s <? 200)%Z eqn:E1; [apply Z.ltb_lt in E1; lia|].
  destruct (599 <? s)%Z eqn:E2; [apply Z.ltb_lt in E2; lia|].
  destruct (s =? 101)%Z eqn:E3; [apply Z.eqb_eq in E3; lia|].
  destruct (s =? 103)%Z eqn:E4; [apply Z.eqb_eq in E4; lia|].
  destruct (s =? 204)%Z eqn:E5; [apply Z.eqb_eq in E5; lia|].
  destruct (s =? 205)%Z eqn:E6; [apply Z.eqb_eq in E6; lia|].
  destruct (s =? 304)%Z eqn:E7; [apply Z.eqb_eq in E7; lia|].
  reflexivity.
Qed.

Lemma json_body {B} (b : B) (s : Z) (r : Response B) : json b s = Normal r -> body r = b.
Proof.
  unfold json. destruct (_ || _); [discriminate|]. intro H. injection H as <-. reflexivity.
Qed.

(** X4.  The handler always answers, and never with ['Mapbox server token is not
    configured'], whatever the environment holds. *)
Theorem ev_GET_always_answers env searchParams fetch :
  exists r, EvRouteApi.GET env searchParams fetch = Normal r /\
            body r <> Error NotConfigured.
Proof.
  unfold EvRouteApi.GET. rewrite token_always_given. cbn [negb].
  destruct (get searchParams "start") as [start|];
    [|eexists; split; [reflexivity|discriminate]].
  destruct (get searchParams "end") as [end_|];
    [|eexists; split; [reflexivity|discriminate]].
  destruct (negb (given (Some start)) || negb (given (Some end_)));
    [eexists; split; [reflexivity|discriminate]|].
  cbv zeta.
  destruct (fetch _) as [|status statusText b];
    [eexists; split; [reflexivity|discriminate]|].
  destruct (negb (Http.ok status)).
  - destruct (json (Error (errorMessageOf status statusText b)) status) as [r|e] eqn:E;
      simpl; [|eexists; split; [reflexivity|discriminate]].
    exists r. split; [reflexivity|]. apply json_body in E. rewrite E.
    unfold errorMessageOf. destruct b as [|raw [errorJson|]]; try discriminate.
    destruct (Js.get errorJson "message") as [m|]; [|discriminate].
    destruct (truthy m); discriminate.
  - destruct b as [|raw [data|]]; simpl;
      try (eexists; split; [reflexivity|discriminate]).
    destruct (Js.get data "waypoints"); simpl;
      eexists; (split; [reflexivity|discriminate]).
Qed.

(** X5.  Without [start] or without [end] the answer is 400, whatever Mapbox
    would say. *)
Theorem ev_GET_requires_start_and_end env searchParams fetch :
  given (get searchParams "start") = false \/ given (get searchParams "end") = false ->
  EvRouteApi.GET env searchParams fetch
  = Normal {| status := 400; body := Error MissingParameters |}.
Proof.
  intro H. unfold EvRouteApi.GET. rewrite token_always_given. cbn [negb].
  destruct (get searchParams "start") as [start|]; [|reflexivity].
  destruct (get searchParams "end") as [end_|]; [|reflexivity].
  destruct H as [H|H]; rewrite H; cbn [negb]; rewrite ?orb_true_r; reflexivity.
Qed.


(** X7.  The answer depends on the query only through [start], [end] and the
    connector types: [vehicle], [range] and the charge parameters that the
    client sends change nothing. *)
Theorem ev_GET_reads_only_places_and_connectors env searchParams searchParams' fetch :
  get searchParams "start" = get searchParams' "start" ->
  get searchParams "end" = get searchParams' "end" ->
  get searchParams "connector_types" = get searchParams' "connector_types" ->
  get searchParams "connectorTypes" = get searchParams' "connectorTypes" ->
  EvRouteApi.GET env searchParams fetch = EvRouteApi.GET env searchParams' fetch.
Proof.
  intros Hs He Hc Hc'. unfold EvRouteApi.GET, evConnectorTypes.
  rewrite Hs, He, Hc, Hc'. reflexivity.
Qed.

(** *** Witnesses *)

Lemma ev_GET_requires_start_and_end_witness :
  EvRouteApi.GET None [("start", "-77.03,38.9")] (fun _ => MapboxRejected)
  = Normal {| status := 400; body := Error MissingParameters |}.
Proof.
  apply (ev_GET_requires_start_and_end None [("start", "-77.03,38.9")]
           (fun _ => MapboxRejected)).
  right. reflexivity.
Defined.


Lemma ev_GET_reads_only_places_and_connectors_witness :
  EvRouteApi.GET None (routeQuery ++ [("range", "160934")])%list (fun _ => notFoundAnswer)
  = EvRouteApi.GET None (routeQuery ++ [("range", "804670"); ("vehicle", "car")])%list
      (fun _ => notFoundAnswer).
Proof.
  apply ev_GET_reads_only_places_and_connectors; reflexivity.
Defined.


End ConnectorProperties.

(* ------------------------------------------------------------------ *)
(** ** The station handler *)
(* ------------------------------------------------------------------ *)

Section StationProperties.
Import Js Http NextServer StationsApi StationsSpec.

Lemma mapM_Forall2 {A B} (f : A -> completion B) (xs : list A) :
  forall ys, mapM f xs = Normal ys -> Forall2 (fun x y => f x = Normal y) xs ys.
Proof.
  induction xs as [|x rest IH]; simpl; intros ys H.
  - injection H as <-. constructor.
  - destruct (f x) as [y|] eqn:E; simpl in H; [|discriminate].
    destruct (mapM f rest) as [ys'|]; simpl in H; [|discriminate].
    injection H as <-. constructor; auto.
Qed.

Ltac step_bind :=
  match goal with
  | |- exists e, bind ?c _ = Throw e => destruct c; simpl; [|eauto]
  end.

Lemma incomplete_feature_throws (feature : value) :
  Incomplete feature -> exists e, transformFeature feature = Throw e.
Proof.
  intros [H | p H1 H2 | p l H1 H2 H3 | p l H1 H2 H3 | p l H1 H2 H3 | p H1 H2];
    unfold transformFeature.
  - rewrite H. simpl. eauto.
  - rewrite H1. simpl. rewrite H2. simpl. eauto.
  - rewrite H1. simpl. rewrite H2. simpl. rewrite H3. simpl. eauto.
  - rewrite H1. simpl. rewrite H2. simpl. rewrite H3.
    repeat step_bind. eauto.
  - rewrite H1. simpl. rewrite H2. simpl. rewrite H3.
    repeat step_bind. eauto.
  - rewrite H1. simpl. rewrite H2.
    repeat step_bind. eauto.
Qed.

Lemma given_nonempty (x : string) : x <> "" -> given (Some x) = true.
Proof.
  intro Hx. unfold given. simpl. destruct (String.eqb_spec x ""); [contradiction|reflexivity].
Qed.

Lemma ok_2xx (status : Z) : (200 <= status <= 299)%Z -> Http.ok status = true.
Proof. intro H. unfold Http.ok. apply andb_true_iff. split; apply Z.leb_le; lia. Qed.

Lemma not_ok (status : Z) : (300 <= status)%Z -> Http.ok status = false.
Proof.
  intro H. unfold Http.ok. destruct (200 <=? status)%Z; [|reflexivity].
  destruct (status <=? 299)%Z eqn:E; [apply Z.leb_le in E; lia|reflexivity].
Qed.

(** X8.  Without [latitude] or without [longitude] the answer is 400, whatever
    Mapbox would say. *)
Theorem stations_GET_requires_position env searchParams fetch :
  given (get searchParams "latitude") = false \/
  given (get searchParams "longitude") = false ->
  StationsApi.GET env searchParams fetch
  = Normal {| status := 400; body := Error MissingParameters |}.
Proof.
  intro H. unfold StationsApi.GET.
  destruct (get searchParams "latitude") as [latitude|]; [|reflexivity].
  destruct (get searchParams "longitude") as [longitude|]; [|reflexivity].
  destruct H as [H|H]; rewrite H; cbn [negb]; rewrite ?orb_true_r; reflexivity.
Qed.

(** X9.  One feature that cannot be read costs the whole answer; otherwise there
    is one station per feature, in the order of the features. *)
Theorem stations_GET_all_or_nothing env searchParams fetch code statusText raw data features :
  given (get searchParams "latitude") = true ->
  given (get searchParams "longitude") = true ->
  (forall url, fetch url = MapboxResponse code statusText (Text raw (Some data))) ->
  (200 <= code <= 299)%Z ->
  Js.get data "features" = Normal (VArr features) ->
  (forall feature, In feature features -> Incomplete feature ->
     StationsApi.GET env searchParams fetch
     = Normal {| status := 500; body := Error InternalServerError |}) /\
  (forall r, StationsApi.GET env searchParams fetch = Normal r -> status r = 200%Z ->
     exists stations,
       body r = Stations stations /\
       Forall2 (fun feature station => transformFeature feature = Normal station)
               features stations).
Proof.
  intros Hlat Hlng Hf Hs Hd. unfold StationsApi.GET.
  destruct (get searchParams "latitude") as [latitude|]; [|discriminate].
  destruct (get searchParams "longitude") as [longitude|]; [|discriminate].
  rewrite Hlat, Hlng. cbn [negb orb]. cbv zeta. rewrite Hf, (ok_2xx _ Hs).
  cbn [negb jsonOf bind]. unfold transform. rewrite Hd. cbn [asArray bind].
  split.
  - intros feature Hin Hinc.
    destruct (mapM_throws transformFeature features feature Hin
                (incomplete_feature_throws _ Hinc)) as [e ->].
    reflexivity.
  - intros r Hr Hst.
    destruct (mapM transformFeature features) as [stations|e] eqn:E; simpl in Hr.
    + injection Hr as <-. exists stations. split; [reflexivity|].
      apply mapM_Forall2. exact E.
    + injection Hr as <-. discriminate.
Qed.

Ltac invert_binds H :=
  repeat match type of H with
         | bind ?c _ = Normal _ =>
             let E := fresh "E" in destruct c eqn:E; simpl in H; [|discriminate]
         end.

(** X10.  A station is reported available exactly when the first EVSE of its
    location has the status ['AVAILABLE'], and its charger types are the
    standards of that EVSE's connectors; the other EVSEs are not read. *)
Theorem station_describes_first_evse feature evse station :
  firstEvse feature evse ->
  transformFeature feature = Normal station ->
  (st_available station = true <-> Js.get evse "status" = Normal (VStr "AVAILABLE")) /\
  (nullish evse = false ->
   exists connectors,
     Js.get evse "connectors" = Normal (VArr connectors) /\
     mapM (fun c => Js.get c "standard") connectors = Normal (st_chargerType station)).
Proof.
  intros (properties & location & others & H1 & H2 & H3) H.
  unfold transformFeature in H. rewrite H1 in H. cbn [bind] in H.
  rewrite H2 in H. cbn [bind] in H. rewrite H3 in H. cbn [bind get0] in H.
  invert_binds H. injection H as <-. simpl.
  split.
  - unfold availableOf in *. destruct (nullish evse) eqn:En.
    + destruct evse; try discriminate; simpl in *; split; congruence.
    + destruct (Js.get evse "status") as [st|] eqn:Est; simpl in *; [|discriminate].
      match goal with Ha : Normal _ = Normal ?a |- _ => injection Ha as <- end.
      unfold strictEqStr. destruct st; split; try discriminate; intro Hx.
      * apply String.eqb_eq in Hx. congruence.
      * injection Hx as ->. reflexivity.
  - intro En. unfold chargerTypeOf in *. rewrite En in *.
    destruct (Js.get evse "connectors") as [cs|] eqn:Ec; simpl in *; [|discriminate].
    destruct cs; simpl in *; try discriminate.
    eexists. split; [reflexivity|]. assumption.
Qed.

(** X11.  A location without EVSE gives a station that is not available, has no
    charger type and the power level 0. *)
Theorem station_without_evse feature station :
  noEvse feature ->
  transformFeature feature = Normal station ->
  st_available station = false /\ st_chargerType station = [] /\
  st_powerLevel station = VNum 0.
Proof.
  intros (properties & location & H1 & H2 & H3) H.
  unfold transformFeature in H. rewrite H1 in H. cbn [bind] in H.
  rewrite H2 in H. cbn [bind] in H. rewrite H3 in H. simpl in H.
  invert_binds H. injection H as <-. simpl. auto.
Qed.

(** X12.  Coordinates without a latitude do not stop the transformation: the
    station's [lat] is NaN. *)
Theorem station_without_latitude_is_nan feature station :
  noLatitude feature ->
  transformFeature feature = Normal station ->
  PrimFloat.is_nan (st_lat station) = true.
Proof.
  intros (properties & location & coordinates & latitude & H1 & H2 & H3 & H4 & Hn) H.
  unfold transformFeature in H. rewrite H1 in H. cbn [bind] in H.
  rewrite H2 in H. cbn [bind] in H. rewrite H3 in H.
  destruct (Js.get location "evses") as [evses|]; [|discriminate]. cbn [bind] in H.
  destruct (get0 evses) as [evse|]; [|discriminate]. cbn [bind] in H.
  destruct (firstConnector evse) as [connector|]; [|discriminate]. cbn [bind] in H.
  destruct (Js.get location "id") as [id|]; [|discriminate]. cbn [bind] in H.
  rewrite H4 in H. cbn [bind] in H.
  assert (Hp : JsGlobals.parseFloat latitude = Normal nan)
    by (destruct latitude; try discriminate; reflexivity).
  rewrite Hp in H. cbn [bind] in H.
  invert_binds H. injection H as <-. reflexivity.
Qed.

(** X13.  A Mapbox error goes through with its status, if its body can be read. *)
Theorem stations_GET_passes_error_status env searchParams fetch code statusText b :
  given (get searchParams "latitude") = true ->
  given (get searchParams "longitude") = true ->
  (forall url, fetch url = MapboxResponse code statusText b) ->
  (300 <= code <= 599)%Z -> code <> 304%Z ->
  StationsApi.GET env searchParams fetch
  = Normal (match b with
            | Text _ _ => {| status := code; body := Error (StatusError code statusText) |}
            | Unreadable => {| status := 500; body := Error InternalServerError |}
            end).
Proof.
  intros Hlat Hlng Hf Hr Hn. unfold StationsApi.GET.
  destruct (get searchParams "latitude") as [latitude|]; [|discriminate].
  destruct (get searchParams "longitude") as [longitude|]; [|discriminate].
  rewrite Hlat, Hlng. cbn [negb orb]. cbv zeta. rewrite Hf, not_ok by lia.
  cbn [negb]. destruct b as [|raw parsed]; [reflexivity|].
  cbn [text bind]. rewrite (json_error_status _ _ Hr Hn). reflexivity.
Qed.

(** *** Witnesses *)

Lemma stations_GET_requires_position_witness :
  StationsApi.GET None [("latitude", "38.9")] (fun _ => MapboxRejected)
  = Normal {| status := 400; body := Error MissingParameters |}.
Proof.
  apply (stations_GET_requires_position None [("latitude", "38.9")] (fun _ => MapboxRejected)).
  right. reflexivity.
Defined.

Lemma stations_GET_all_or_nothing_witness :
  StationsApi.GET None position (answering brokenFeatureText [minimalFeature; VObj []])
  = Normal {| status := 500; body := Error InternalServerError |} /\
  exists r,
    StationsApi.GET None position (answering oneFeatureText [minimalFeature]) = Normal r /\
    exists stations,
      body r = Stations stations /\
      Forall2 (fun feature station => transformFeature feature = Normal station)
              [minimalFeature] stations.
Proof.
  assert (Hlat : given (get position "latitude") = true) by reflexivity.
  assert (Hlng : given (get position "longitude") = true) by reflexivity.
  assert (Hcode : (200 <= 200 <= 299)%Z) by lia.
  split.
  - apply (proj1 (stations_GET_all_or_nothing None position
                    (answering brokenFeatureText [minimalFeature; VObj []])
                    200 "OK" brokenFeatureText
                    (VObj [("features", VArr [minimalFeature; VObj []])])
                    [minimalFeature; VObj []]
                    Hlat Hlng (fun _ => eq_refl) Hcode eq_refl) (VObj [])).
    + right. left. reflexivity.
    + apply NoProperties. reflexivity.
  - eexists. split; [vm_compute; reflexivity|].
    match goal with
    | |- exists stations, body ?r = _ /\ _ =>
        assert (Hr : StationsApi.GET None position (answering oneFeatureText [minimalFeature])
                     = Normal r) by (vm_compute; reflexivity);
        assert (Hst : status r = 200%Z) by (vm_compute; reflexivity)
    end.
    exact (proj2 (stations_GET_all_or_nothing None position
                    (answering oneFeatureText [minimalFeature])
                    200 "OK" oneFeatureText
                    (VObj [("features", VArr [minimalFeature])])
                    [minimalFeature]
                    Hlat Hlng (fun _ => eq_refl) Hcode eq_refl) _ Hr Hst).
Defined.

Lemma stations_GET_passes_error_status_witness :
  StationsApi.GET None position
    (fun _ => MapboxResponse 429 "Too Many Requests" (Text "Rate limit exceeded" None))
  = Normal {| status := 429; body := Error (StatusError 429 "Too Many Requests") |}.
Proof.
  assert (Hlat : given (get position "latitude") = true) by reflexivity.
  assert (Hlng : given (get position "longitude") = true) by reflexivity.
  assert (Hcode : (300 <= 429 <= 599)%Z) by lia.
  assert (Hn : 429%Z <> 304%Z) by lia.
  exact (stations_GET_passes_error_status None position
           (fun _ => MapboxResponse 429 "Too Many Requests" (Text "Rate limit exceeded" None))
           429 "Too Many Requests" (Text "Rate limit exceeded" None)
           Hlat Hlng (fun _ => eq_refl) Hcode Hn).
Defined.

Lemma station_describes_first_evse_witness :
  exists station,
    transformFeature busyFirstFeature = Normal station /\
    (st_available station = true <-> Js.get busyEvse "status" = Normal (VStr "AVAILABLE")) /\
    (nullish busyEvse = false ->
     exists connectors,
       Js.get busyEvse "connectors" = Normal (VArr connectors) /\
       mapM (fun c => Js.get c "standard") connectors = Normal (st_chargerType station)).
Proof.
  eexists. split; [vm_compute; reflexivity|].
  match goal with
  | |- (st_available ?station = true <-> _) /\ _ =>
      assert (Ht : transformFeature busyFirstFeature = Normal station)
        by (vm_compute; reflexivity)
  end.
  apply (station_describes_first_evse busyFirstFeature busyEvse _); [|exact Ht].
  unfold firstEvse. do 3 eexists. repeat split; reflexivity.
Defined.

Lemma station_without_evse_witness :
  exists station,
    transformFeature minimalFeature = Normal station /\
    st_available station = false /\ st_chargerType station = [] /\
    st_powerLevel station = VNum 0.
Proof.
  eexists. split; [vm_compute; reflexivity|].
  match goal with
  | |- st_available ?station = false /\ _ =>
      assert (Ht : transformFeature minimalFeature = Normal station)
        by (vm_compute; reflexivity)
  end.
  apply (station_without_evse minimalFeature _); [|exact Ht].
  unfold noEvse. do 2 eexists. repeat split; reflexivity.
Defined.

Lemma station_without_latitude_is_nan_witness :
  exists station,
    transformFeature minimalFeature = Normal station /\
    PrimFloat.is_nan (st_lat station) = true.
Proof.
  eexists. split; [vm_compute; reflexivity|].
  match goal with
  | |- PrimFloat.is_nan (st_lat ?station) = true =>
      assert (Ht : transformFeature minimalFeature = Normal station)
        by (vm_compute; reflexivity)
  end.
  apply (station_without_latitude_is_nan minimalFeature _); [|exact Ht].
  unfold noLatitude. do 4 eexists. repeat split; reflexivity.
Defined.

End StationProperties.

(* ------------------------------------------------------------------ *)
(** ** The route planner *)
(* ------------------------------------------------------------------ *)

Section PageProperties.
Import Js Http ConnectorTypeMapper EvRouting NextServer EvRouteApi RoutesPage PageSpec.

Lemma SFltb_SFleb_trans (x y z : spec_float) :
  SFltb x y = true -> SFleb y z = true -> SFltb x z = true.
Proof.
  unfold SFltb, SFleb, SFcompare.
  destruct x as [sx|sx| |sx mx ex], y as [sy|sy| |sy my ey], z as [sz|sz| |sz mz ez];
    try destruct sx; try destruct sy; try destruct sz;
    try discriminate; try reflexivity;
    change (Pos.compare_cont Eq) with Pos.compare;
    destruct (Z.compare_spec ex ey); try discriminate;
    destruct (Z.compare_spec ey ez); try discriminate;
    destruct (Z.compare_spec ex ez); try reflexivity; try lia; subst;
    destruct (Pos.compare_spec mx my); try discriminate;
    destruct (Pos.compare_spec my mz); try discriminate;
    destruct (Pos.compare_spec mx mz); try reflexivity; simpl; try discriminate; lia.
Qed.

Lemma ltb_leb_trans (t a b : float) :
  (t <? a)%float = true -> (a <=? b)%float = true -> (t <? b)%float = true.
Proof. rewrite !ltb_spec, leb_spec. apply SFltb_SFleb_trans. Qed.

Lemma SFltb_SFleb (x y : spec_float) : SFltb x y = true -> SFleb x y = true.
Proof.
  unfold SFltb, SFleb. destruct (SFcompare x y) as [[| |]|]; try discriminate; reflexivity.
Qed.

Lemma ltb_trans (a b c : float) :
  (a <? b)%float = true -> (b <? c)%float = true -> (a <? c)%float = true.
Proof.
  intros H1 H2. apply (ltb_leb_trans a b c H1).
  rewrite leb_spec. apply SFltb_SFleb. rewrite <- ltb_spec. exact H2.
Qed.

(** X14.  The farther apart the two places, the lower (or equal) the zoom. *)
Theorem calculateZoomLevel_antitone (d1 d2 : float) :
  (d1 <=? d2)%float = true ->
  (calculateZoomLevel d2 <=? calculateZoomLevel d1)%float = true.
Proof.
  intro H.
  assert (T : forall t, (t <? d1)%float = true -> (t <? d2)%float = true)
    by (intros t Ht; exact (ltb_leb_trans t d1 d2 Ht H)).
  unfold calculateZoomLevel.
  repeat match goal with
         | |- context [(?t <? d1)%float] =>
             let E := fresh "E" in destruct (t <? d1)%float eqn:E; [apply T in E|]
         end;
  repeat match goal with
         | |- context [(?t <? d2)%float] =>
             let E := fresh "F" in destruct (t <? d2)%float eqn:E
         end;
  try reflexivity; congruence.
Qed.

(** X15.  The zoom is 12 or more, the level from which the map component asks for
    stations when it is moved, exactly when the distance is not above 5 km. *)
Theorem calculateZoomLevel_station_threshold (d : float) :
  (12 <=? calculateZoomLevel d)%float = negb (5 <? d)%float.
Proof.
  assert (T : forall t, (5 <? t)%float = true -> (t <? d)%float = true -> (5 <? d)%float = true)
    by (intros t; apply ltb_trans).
  unfold calculateZoomLevel.
  destruct (5 <? d)%float eqn:E5.
  - repeat match goal with
           | |- context [(?t <? d)%float] => destruct (t <? d)%float; [reflexivity|]
           end.
    reflexivity.
  - repeat match goal with
           | |- context [(?t <? d)%float] =>
               let E := fresh "E" in
               destruct (t <? d)%float eqn:E;
               [first [ reflexivity | apply T in E; [congruence | reflexivity] ] |]
           end.
    reflexivity.
Qed.

(** X16.  Whatever boxes are ticked, the page's request names connector types that
    the route handler passes on to Mapbox unchanged and without a warning,
    each once. *)
Theorem page_connectors_reach_mapbox (page : Page) (a b c d : float) :
  exists sent,
    In ("connector_types", QList sent) (snd (buildUrl a b c d (vehicleParamsOf page))) /\
    sent <> [] /\
    (forall t, In t sent -> canonicalize t = (t, [])) /\
    evConnectorTypes [("connector_types", joinComma sent)]
    = (Some (removeDuplicates [] sent), []).
Proof.
  exists (match connectorTypesOf (selectedConnectors page) with
          | [] => ["ccs_combo_type2"; "ccs_combo_type1"]
          | l => l
          end).
  split.
  - unfold buildUrl, vehicleParamsOf. cbn [vehicleType range connectorTypes].
    destruct (connectorTypesOf (selectedConnectors page)) as [|t ts];
      rewrite ?map_id; apply in_or_app; right; left; reflexivity.
  - destruct (selectedConnectors page) as [[|] [|] [|] [|] [|]];
      (split; [discriminate|]);
      (split; [intros t Ht; simpl in Ht;
               repeat (destruct Ht as [<-|Ht]; [reflexivity|]); destruct Ht
              |reflexivity]).
Qed.

(** X17.  [calculateRoute] ends with the loading flag off, and either a new route
    and no message, or the previous route and the message that no route could
    be calculated; it never shows the message of its [catch] block. *)
Theorem calculateRoute_outcomes fetch page startLoc endLoc :
  startLocation page = Some startLoc -> endLocation page = Some endLoc ->
  let page' := calculateRoute fetch page in
  isCalculatingRoute page' = false /\
  alerts page' = alerts page /\
  ((exists r, route page' = Some r /\ routeError page' = None) \/
   (route page' = route page /\ routeError page' = Some couldNotCalculate)).
Proof.
  intros Hs He. unfold calculateRoute. rewrite Hs, He. cbv zeta.
  destruct (calculateEvRoute_total fetch (loc_latitude startLoc) (loc_longitude startLoc)
              (loc_latitude endLoc) (loc_longitude endLoc) (vehicleParamsOf page))
    as (r & log & E).
  rewrite E. simpl. destruct r as [r|]; simpl; eauto 7.
Qed.

(** *** Witnesses *)

Lemma calculateZoomLevel_antitone_witness :
  (calculateZoomLevel 300 <=? calculateZoomLevel 3)%float = true.
Proof.
  assert (H : (3 <=? 300)%float = true) by (vm_compute; reflexivity).
  exact (calculateZoomLevel_antitone 3 300 H).
Defined.

Lemma calculateRoute_outcomes_witness :
  let page' := calculateRoute (fun _ => Rejected) tripPage in
  isCalculatingRoute page' = false /\
  alerts page' = alerts tripPage /\
  ((exists r, route page' = Some r /\ routeError page' = None) \/
   (route page' = route tripPage /\ routeError page' = Some couldNotCalculate)).
Proof.
  exact (calculateRoute_outcomes (fun _ => Rejected) tripPage washington newYork
           eq_refl eq_refl).
Defined.

End PageProperties.

(* ------------------------------------------------------------------ *)
(** ** The component: cache order, unmount, static data *)
(* ------------------------------------------------------------------ *)

Section ComponentProperties.
Import Js Http ChargingStations MapWrapper CoordinatorSpec ComponentSpec.

Ltac state_simpl :=
  unfold setIsLoading, setError, setStationsCache, setMapView, withRef, withTimers,
    withNow, withMounted, withRequests, consoleError, clearTimeout, sendRequest in *;
  repeat match goal with
         | |- context [if mounted ?s then _ else _] => destruct (mounted s) eqn:?
         end;
  simpl in *.

(** *** The order of the cache *)

Lemma keys_assign (c : Cache) (k : string) (v : ChargingStation) :
  keys (assign c k v) = if has c k then keys c else (keys c ++ [k])%list.
Proof.
  unfold keys. induction c as [|[k0 v0] c IH]; simpl; [reflexivity|].
  destruct (String.eqb k k0) eqn:E; simpl; [reflexivity|].
  rewrite IH. destruct (has c k); reflexivity.
Qed.

Lemma keys_spread (new : Cache) : forall prev,
  exists added, keys (spread prev new) = (keys prev ++ added)%list.
Proof.
  unfold spread.
  induction new as [|[k v] new IH]; simpl; intro prev.
  - exists []. rewrite app_nil_r. reflexivity.
  - destruct (IH (assign prev k v)) as [added E]. rewrite E, keys_assign.
    destruct (has prev k); [eauto|].
    rewrite <- app_assoc. eauto.
Qed.

Lemma settle_keys props p outcome s :
  exists added,
    keys (stationsCache (settle props p outcome s)) = (keys (stationsCache s) ++ added)%list.
Proof.
  assert (Same : exists added : list string,
             keys (stationsCache s) = (keys (stationsCache s) ++ added)%list)
    by (exists []; rewrite app_nil_r; reflexivity).
  unfold settle.
  destruct (fetchChargingStations outcome) as [fetched logged].
  destruct (tryBlock (req_closure p) fetched) as [[newStations [|]]|err].
  - destruct (mounted (consoleError logged s)) eqn:Hm.
    + rewrite mountEffect_cache. state_simpl; try congruence.
      apply keys_spread.
    + state_simpl; try congruence; exact Same.
  - state_simpl; exact Same.
  - state_simpl; exact Same.
Qed.

Lemma step_keys props s e s' :
  step props s e = Some s' ->
  exists added, keys (stationsCache s') = (keys (stationsCache s) ++ added)%list.
Proof.
  assert (Same : exists added : list string,
             keys (stationsCache s) = (keys (stationsCache s) ++ added)%list)
    by (exists []; rewrite app_nil_r; reflexivity).
  intros Hs. destruct e as [c z|ms|i|i outcome|]; simpl in Hs.
  - destruct (mounted s) eqn:Hm; [|discriminate]. injection Hs as <-.
    unfold handleMapMove.
    destruct (12 <=? z)%float; [rewrite fetchStations_cache|]; state_simpl; try congruence;
      exact Same.
  - destruct (0 <=? ms)%Z; [|discriminate]. injection Hs as <-. exact Same.
  - destruct (findTimer i (timers s)) as [t|]; [|discriminate].
    destruct (timer_due t <=? now s)%Z; [|discriminate]. injection Hs as <-.
    destruct (timer_action t); simpl; state_simpl; exact Same.
  - destruct (findPending i (inFlight s)) as [p|]; [|discriminate]. injection Hs as <-.
    apply (settle_keys props p outcome
             (withRequests (dropPending i (inFlight s)) (requests s) s)).
  - destruct (mounted s); [|discriminate]. injection Hs as <-.
    unfold unmount. simpl.
    destruct (clearDebounceTimer_fields s) as (_ & _ & _ & _ & E & _). rewrite E. exact Same.
Qed.

(** X18.  The cache only grows, and at its end: whatever happens, the keys it had
    stay where they were, and new keys come after them. *)
Theorem cache_grows_at_the_end props events : forall s s',
  run props s events = Some s' ->
  exists added, keys (stationsCache s') = (keys (stationsCache s) ++ added)%list.
Proof.
  induction events as [|e events IH]; simpl; intros s s' Hr.
  - injection Hr as <-. exists []. rewrite app_nil_r. reflexivity.
  - destruct (step props s e) as [s1|] eqn:Hs; [|discriminate].
    destruct (step_keys props s e s1 Hs) as [a1 E1].
    destruct (IH s1 s' Hr) as [a2 E2].
    exists (a1 ++ a2)%list. rewrite E2, E1, app_assoc. reflexivity.
Qed.

Lemma cache_setIsLoading b s : stationsCache (setIsLoading b s) = stationsCache s.
Proof. unfold setIsLoading. destruct (mounted s); reflexivity. Qed.

Lemma cache_setError e s : stationsCache (setError e s) = stationsCache s.
Proof. unfold setError. destruct (mounted s); reflexivity. Qed.

(** X19.  A response changes no entry whose key was in the cache that the
    request's callback closed over. *)
Theorem response_keeps_entries_it_saw props s i p outcome s' k :
  findPending i (inFlight s) = Some p ->
  has (req_closure p) k = true ->
  step props s (FetchSettles i outcome) = Some s' ->
  lookupStation (stationsCache s') k = lookupStation (stationsCache s) k.
Proof.
  intros Hp Hk Hs. simpl in Hs. rewrite Hp in Hs. injection Hs as <-.
  unfold settle.
  destruct (fetchChargingStations outcome) as [fetched logged].
  destruct (tryBlock (req_closure p) fetched) as [[newStations [|]]|err] eqn:Ht.
  - assert (Hn : has newStations k = false).
    { unfold tryBlock in Ht. destruct fetched as [[l|]|]; simpl in Ht; try discriminate.
      pose proof (collectNew_only_new (req_closure p) l k Hk) as Hc.
      injection Ht as Ht. rewrite Ht in Hc. exact Hc. }
    match goal with
    | |- context [if ?m then _ else _] => destruct m eqn:Hm
    end.
    + rewrite mountEffect_cache. state_simpl; try congruence.
      apply lookup_spread_other, Hn.
    + state_simpl; try congruence; reflexivity.
  - rewrite cache_setIsLoading. reflexivity.
  - rewrite cache_setIsLoading, cache_setError. reflexivity.
Qed.

(** *** The mount effect after a cache update *)


(** *** After the unmount *)

Lemma mounted_setIsLoading b s : mounted (setIsLoading b s) = mounted s.
Proof. unfold setIsLoading. destruct (mounted s) eqn:E; simpl; congruence. Qed.

Lemma mounted_setError e s : mounted (setError e s) = mounted s.
Proof. unfold setError. destruct (mounted s) eqn:E; simpl; congruence. Qed.

Lemma mounted_setStationsCache u s : mounted (setStationsCache u s) = mounted s.
Proof. unfold setStationsCache. destruct (mounted s) eqn:E; simpl; congruence. Qed.

Lemma mounted_setMapView c z s : mounted (setMapView c z s) = mounted s.
Proof. unfold setMapView. destruct (mounted s) eqn:E; simpl; congruence. Qed.

Lemma mounted_clearDebounceTimer s : mounted (clearDebounceTimer s) = mounted s.
Proof. unfold clearDebounceTimer. destruct (debounceTimerRef s); reflexivity. Qed.

Lemma mounted_fetchStations props lat lng radius immediate s :
  mounted (fetchStations props lat lng radius immediate s) = mounted s.
Proof.
  unfold fetchStations. destruct (negb (useRealData props)); [reflexivity|].
  destruct immediate; unfold setTimeout, sendRequest, withRequests, withRef, withTimers; simpl;
    rewrite ?mounted_setError, ?mounted_setIsLoading; apply mounted_clearDebounceTimer.
Qed.

Lemma mounted_mountEffect props s : mounted (mountEffect props s) = mounted s.
Proof.
  unfold mountEffect. destruct (useRealData props); [apply mounted_fetchStations|reflexivity].
Qed.

Lemma mounted_settle props p outcome s : mounted (settle props p outcome s) = mounted s.
Proof.
  unfold settle.
  destruct (fetchChargingStations outcome) as [fetched logged].
  destruct (tryBlock (req_closure p) fetched) as [[newStations [|]]|err].
  - destruct (mounted (consoleError logged s));
      rewrite ?mounted_mountEffect, mounted_setIsLoading, mounted_setStationsCache;
      reflexivity.
  - rewrite mounted_setIsLoading. reflexivity.
  - rewrite mounted_setIsLoading, mounted_setError. reflexivity.
Qed.

Lemma mounted_fire action s : mounted (fire action s) = mounted s.
Proof.
  destruct action; simpl; [apply mounted_setIsLoading|].
  unfold sendRequest, withRequests; simpl.
  rewrite mounted_setError, mounted_setIsLoading. reflexivity.
Qed.

(** Only the unmount unmounts. *)
Lemma step_mounted props s e s' :
  step props s e = Some s' -> mounted s = true -> e <> Unmount -> mounted s' = true.
Proof.
  intros Hs Hm He. destruct e as [c z|ms|i|i outcome|]; simpl in Hs; [| | | |congruence].
  - rewrite Hm in Hs. injection Hs as <-. unfold handleMapMove.
    destruct (12 <=? z)%float;
      rewrite ?mounted_fetchStations, mounted_setMapView; exact Hm.
  - destruct (0 <=? ms)%Z; [|discriminate]. injection Hs as <-. exact Hm.
  - destruct (findTimer i (timers s)) as [t|]; [|discriminate].
    destruct (timer_due t <=? now s)%Z; [|discriminate]. injection Hs as <-.
    rewrite mounted_fire. exact Hm.
  - destruct (findPending i (inFlight s)) as [p|]; [|discriminate]. injection Hs as <-.
    rewrite mounted_settle. exact Hm.
Qed.

(** React drops the updates of an unmounted component. *)
Lemma unmounted_setIsLoading b s : mounted s = false -> setIsLoading b s = s.
Proof. unfold setIsLoading. intros ->. reflexivity. Qed.

Lemma unmounted_setError e s : mounted s = false -> setError e s = s.
Proof. unfold setError. intros ->. reflexivity. Qed.

Lemma unmounted_setStationsCache u s : mounted s = false -> setStationsCache u s = s.
Proof. unfold setStationsCache. intros ->. reflexivity. Qed.

Lemma settle_unmounted props p outcome s :
  mounted s = false ->
  mounted (settle props p outcome s) = false /\
  timers (settle props p outcome s) = timers s /\
  requests (settle props p outcome s) = requests s /\
  stationsCache (settle props p outcome s) = stationsCache s /\
  isLoading (settle props p outcome s) = isLoading s /\
  error (settle props p outcome s) = error s.
Proof.
  intro Hm. unfold settle.
  destruct (fetchChargingStations outcome) as [fetched logged].
  assert (Hm0 : mounted (consoleError logged s) = false) by exact Hm.
  destruct (tryBlock (req_closure p) fetched) as [[newStations [|]]|err].
  - rewrite Hm0, (unmounted_setStationsCache _ _ Hm0), (unmounted_setIsLoading _ _ Hm0).
    simpl. auto 10.
  - rewrite (unmounted_setIsLoading _ _ Hm0). simpl. auto 10.
  - set (s1 := consoleError _ (consoleError logged s)).
    assert (Hm1 : mounted s1 = false) by exact Hm.
    rewrite (unmounted_setError _ _ Hm1), (unmounted_setIsLoading _ _ Hm1).
    simpl. auto 10.
Qed.

(** What an event leaves alone once the component is unmounted and no
    debounce timer is set. *)
Lemma step_unmounted props s e s' :
  mounted s = false -> debounceTimers s = [] -> step props s e = Some s' ->
  mounted s' = false /\ debounceTimers s' = [] /\
  requests s' = requests s /\ stationsCache s' = stationsCache s /\
  isLoading s' = isLoading s /\ error s' = error s.
Proof.
  intros Hm Hd Hs. destruct e as [c z|ms|i|i outcome|]; simpl in Hs.
  - rewrite Hm in Hs. discriminate.
  - destruct (0 <=? ms)%Z; [|discriminate]. injection Hs as <-.
    unfold debounceTimers in *. simpl. auto 10.
  - destruct (findTimer i (timers s)) as [t|] eqn:Hf; [|discriminate].
    destruct (timer_due t <=? now s)%Z; [|discriminate]. injection Hs as <-.
    apply findTimer_some in Hf as [Hin _].
    pose proof (proj1 (filter_nil_iff isDebounce _) Hd t Hin) as Ht.
    unfold isDebounce in Ht. destruct (timer_action t); [|discriminate].
    simpl. unfold setIsLoading. simpl. rewrite Hm.
    rewrite debounceTimers_clearTimeout, Hd. simpl. auto 10.
  - destruct (findPending i (inFlight s)) as [p|]; [|discriminate]. injection Hs as <-.
    destruct (settle_unmounted props p outcome
                (withRequests (dropPending i (inFlight s)) (requests s) s) Hm)
      as (A & B & C & D & E & F).
    split; [exact A|]. split; [unfold debounceTimers; rewrite B; exact Hd|].
    split; [exact C|]. split; [exact D|]. split; [exact E|exact F].
  - rewrite Hm in Hs. discriminate.
Qed.

Lemma run_unmounted props events : forall s s',
  mounted s = false -> debounceTimers s = [] -> run props s events = Some s' ->
  requests s' = requests s /\ stationsCache s' = stationsCache s /\
  isLoading s' = isLoading s /\ error s' = error s.
Proof.
  induction events as [|e events IH]; simpl; intros s s' Hm Hd Hr.
  - injection Hr as <-. auto.
  - destruct (step props s e) as [s1|] eqn:Hs; [|discriminate].
    destruct (step_unmounted props s e s1 Hm Hd Hs) as (A & B & C & D & E & F).
    destruct (IH s1 s' A B Hr) as (C' & D' & E' & F').
    rewrite C', D', E', F'. auto.
Qed.

Lemma unmounted_has_no_debounce_timer props events : forall s s',
  wf s -> (mounted s = false -> debounceTimers s = []) ->
  run props s events = Some s' ->
  mounted s' = false -> debounceTimers s' = [].
Proof.
  induction events as [|e events IH]; simpl; intros s s' Hwf Hinv Hr Hm'.
  - injection Hr as <-. auto.
  - destruct (step props s e) as [s1|] eqn:Hs; [|discriminate].
    apply (IH s1 s'); auto.
    + eapply wf_step; eauto.
    + intro Hm1. destruct (mounted s) eqn:Hm.
      * destruct e as [c z|ms|i|i outcome|];
          try (rewrite (step_mounted props s _ s1 Hs Hm) in Hm1; [discriminate|discriminate]).
        simpl in Hs. rewrite Hm in Hs. injection Hs as <-.
        unfold unmount, debounceTimers. simpl.
        apply (no_debounce_after_clear s Hwf).
      * apply (step_unmounted props s e s1 Hm (Hinv eq_refl) Hs).
Qed.

(** X21.  Once the component is unmounted it sends no request and none of its
    state changes, though timers may still fire and requests still settle. *)
Theorem unmounted_component_is_inert props history s events s' :
  run props (init props) history = Some s ->
  mounted s = false ->
  run props s events = Some s' ->
  requests s' = requests s /\ stationsCache s' = stationsCache s /\
  isLoading s' = isLoading s /\ error s' = error s.
Proof.
  intros Hr Hm Hl.
  apply (run_unmounted props events s s' Hm); [|exact Hl].
  apply (unmounted_has_no_debounce_timer props history (init props) s (wf_init props));
    [|exact Hr|exact Hm].
  intro H. unfold init, mountEffect in H.
  destruct (useRealData props) eqn:Hu; [|discriminate].
  unfold fetchStations in H. rewrite Hu in H. simpl in H. discriminate.
Qed.

(** *** Without real data *)

Lemma step_silent props s e s' :
  useRealData props = false -> silent s -> step props s e = Some s' -> silent s'.
Proof.
  intros Hu (A & B & C & D & E & F) Hs.
  destruct e as [c z|ms|i|i outcome|]; simpl in Hs.
  - destruct (mounted s) eqn:Hm; [|discriminate]. injection Hs as <-.
    unfold handleMapMove, fetchStations. rewrite Hu. simpl.
    destruct (12 <=? z)%float; unfold silent; state_simpl; auto 10; congruence.
  - destruct (0 <=? ms)%Z; [|discriminate]. injection Hs as <-.
    unfold silent. simpl. auto 10.
  - rewrite B in Hs. discriminate.
  - rewrite C in Hs. discriminate.
  - destruct (mounted s); [|discriminate]. injection Hs as <-.
    unfold silent, unmount, clearDebounceTimer.
    destruct (debounceTimerRef s); state_simpl; rewrite ?B; simpl; auto 10.
Qed.

Lemma run_silent props events s :
  useRealData props = false -> run props (init props) events = Some s -> silent s.
Proof.
  intros Hu Hr.
  assert (H0 : silent (init props)).
  { unfold init, mountEffect. rewrite Hu. unfold silent. simpl. auto 10. }
  assert (G : forall evs s0 s1, silent s0 -> run props s0 evs = Some s1 -> silent s1).
  { induction evs as [|e evs IH]; simpl; intros s0 s1 Hs0 Hrun.
    - injection Hrun as <-. exact Hs0.
    - destruct (step props s0 e) as [s2|] eqn:Hs; [|discriminate].
      eapply IH; [|exact Hrun]. eapply step_silent; eauto. }
  exact (G events (init props) s H0 Hr).
Qed.

(** X22.  With [useRealData = false] the component never sends a request, sets
    no timer and keeps its cache empty, whatever the map does. *)
Theorem static_data_component_is_silent props events s :
  useRealData props = false ->
  run props (init props) events = Some s ->
  requests s = [] /\ timers s = [] /\ stationsCache s = [] /\
  isLoading s = false /\ error s = None.
Proof.
  intros Hu Hr.
  destruct (run_silent props events s Hu Hr) as (A & B & C & D & E & F). auto.
Qed.

(** *** Witnesses *)

Lemma cache_grows_at_the_end_witness :
  exists s',
    run defaultProps (init defaultProps) overlap = Some s' /\
    exists added,
      keys (stationsCache s') = (keys (stationsCache (init defaultProps)) ++ added)%list.
Proof.
  eexists. split; [vm_compute; reflexivity|].
  match goal with
  | |- exists added, keys (stationsCache ?s') = _ =>
      assert (Hrun : run defaultProps (init defaultProps) overlap = Some s')
        by (vm_compute; reflexivity)
  end.
  exact (cache_grows_at_the_end defaultProps overlap (init defaultProps) _ Hrun).
Defined.

Lemma response_keeps_entries_it_saw_witness :
  exists s s',
    run defaultProps (init defaultProps) [firstAnswer] = Some s /\
    step defaultProps s repeatedAnswer = Some s' /\
    lookupStation (stationsCache s') keyA = lookupStation (stationsCache s) keyA.
Proof.
  eexists. eexists. split; [vm_compute; reflexivity|].
  split; [vm_compute; reflexivity|].
  match goal with
  | |- lookupStation (stationsCache ?s') _ = lookupStation (stationsCache ?s) _ =>
      assert (Hp : exists p, findPending 1 (inFlight s) = Some p /\
                             has (req_closure p) keyA = true)
        by (eexists; split; vm_compute; reflexivity);
      assert (Hs : step defaultProps s
                     (FetchSettles 1 (Success (Json (FetchedStations [stationA'])))) = Some s')
        by (vm_compute; reflexivity)
  end.
  destruct Hp as (p & Hp & Hk).
  exact (response_keeps_entries_it_saw defaultProps _ 1 p _ _ keyA Hp Hk Hs).
Defined.


Lemma unmounted_component_is_inert_witness :
  exists s s',
    run defaultProps (init defaultProps) [pan; Unmount] = Some s /\
    run defaultProps s afterUnmount = Some s' /\
    requests s' = requests s /\ stationsCache s' = stationsCache s /\
    isLoading s' = isLoading s /\ error s' = error s.
Proof.
  eexists. eexists. split; [vm_compute; reflexivity|].
  split; [vm_compute; reflexivity|].
  match goal with
  | |- requests ?s' = requests ?s /\ _ =>
      assert (Hrun : run defaultProps (init defaultProps) [pan; Unmount] = Some s)
        by (vm_compute; reflexivity);
      assert (Hm : mounted s = false) by (vm_compute; reflexivity);
      assert (Hl : run defaultProps s afterUnmount = Some s') by (vm_compute; reflexivity)
  end.
  exact (unmounted_component_is_inert defaultProps [pan; Unmount] _ afterUnmount _ Hrun Hm Hl).
Defined.

Lemma static_data_component_is_silent_witness :
  exists s,
    run staticProps (init staticProps) [pan; Elapse 1000; Unmount] = Some s /\
    requests s = [] /\ timers s = [] /\ stationsCache s = [] /\
    isLoading s = false /\ error s = None.
Proof.
  eexists. split; [vm_compute; reflexivity|].
  match goal with
  | |- requests ?s = [] /\ _ =>
      assert (Hrun : run staticProps (init staticProps) [pan; Elapse 1000; Unmount] = Some s)
        by (vm_compute; reflexivity)
  end.
  assert (Hu : useRealData staticProps = false) by (vm_compute; reflexivity).
  exact (static_data_component_is_silent staticProps [pan; Elapse 1000; Unmount] _ Hu Hrun).
Defined.

End ComponentProperties.

(* ------------------------------------------------------------------ *)
(** ** Station details *)
(* ------------------------------------------------------------------ *)

Section DetailsProperties.
Import Js Http JsGlobals MapWrapper StationDetails ComponentSpec DetailsSpec.

Ltac step_throw :=
  match goal with
  | |- exists e, bind ?c _ = Throw e => destruct c; simpl; [|eauto]
  end.

Lemma unusable_gives_null_or_throws (data : value) :
  Unusable data -> detailsOf data = Normal None \/ exists e, detailsOf data = Throw e.
Proof.
  intros [H | p H1 H2 | p l H1 H2 H3 | p l H1 H2 H3 | p l H1 H2 H3]; unfold detailsOf.
  - rewrite H. auto.
  - destruct (truthy data); [|auto]. rewrite H1. simpl. rewrite H2. auto.
  - destruct (truthy data); [|auto]. rewrite H1. simpl.
    destruct (truthy p); [|auto]. rewrite H2. simpl. rewrite H3. auto.
  - destruct (truthy data); [|auto]. rewrite H1. simpl.
    destruct (truthy p); [|auto]. rewrite H2. simpl.
    destruct (truthy l); [|auto]. right. rewrite H3.
    repeat step_throw. eauto.
  - destruct (truthy data); [|auto]. rewrite H1. simpl.
    destruct (truthy p); [|auto]. rewrite H2. simpl.
    destruct (truthy l); [|auto]. right. rewrite H3.
    repeat step_throw. eauto.
Qed.

Lemma fetchChargingStationDetails_total fetch stationId :
  exists r written, fetchChargingStationDetails fetch stationId = (Normal r, written).
Proof.
  unfold fetchChargingStationDetails, tryCatchLog.
  match goal with |- context [match ?c with Normal _ => _ | Throw _ => _ end] =>
    destruct c; eauto end.
Qed.

(** X23.  The details query never throws: it resolves to [null] when the request
    is rejected, when the status is not 2xx, when the body is not JSON and
    when the document is unusable; details come only from a 2xx document. *)
Theorem fetchChargingStationDetails_null_on_failure fetch stationId :
  (exists r written, fetchChargingStationDetails fetch stationId = (Normal r, written)) /\
  (forall details,
     fst (fetchChargingStationDetails fetch stationId) = Normal (Some details) ->
     exists status data,
       fetch (detailsUrl stationId) = Response status (JsonBody data) /\
       ok status = true /\ detailsOf data = Normal (Some details)) /\
  (fetch (detailsUrl stationId) = Rejected ->
   fst (fetchChargingStationDetails fetch stationId) = Normal None) /\
  (forall status body,
     fetch (detailsUrl stationId) = Response status body -> ok status = false ->
     fst (fetchChargingStationDetails fetch stationId) = Normal None) /\
  (forall status,
     fetch (detailsUrl stationId) = Response status InvalidBody ->
     fst (fetchChargingStationDetails fetch stationId) = Normal None) /\
  (forall status data,
     fetch (detailsUrl stationId) = Response status (JsonBody data) -> Unusable data ->
     fst (fetchChargingStationDetails fetch stationId) = Normal None).
Proof.
  split; [apply fetchChargingStationDetails_total|].
  unfold fetchChargingStationDetails, tryCatchLog.
  split; [|split; [|split; [|split]]].
  - intros details H.
    destruct (fetch (detailsUrl stationId)) as [|status body]; [discriminate|].
    destruct (ok status) eqn:Hok; simpl in H.
    + destruct body as [data|]; simpl in H; [|discriminate].
      destruct (detailsOf data) as [o|] eqn:Hd; simpl in H; [|discriminate].
      injection H as ->. eauto.
    + unfold throwApiError in H.
      destruct (json body) as [errorData|]; simpl in H; [|discriminate].
      destruct (get errorData "error") as [err|]; simpl in H; [|discriminate].
      destruct (truthy err); discriminate.
  - intros ->. reflexivity.
  - intros status body -> Hok. rewrite Hok. simpl. unfold throwApiError.
    destruct (json body) as [errorData|]; simpl; [|reflexivity].
    destruct (get errorData "error") as [err|]; simpl; [|reflexivity].
    destruct (truthy err); reflexivity.
  - intros status ->. destruct (ok status); simpl; reflexivity.
  - intros status data -> Hu. destruct (ok status) eqn:Hok; simpl.
    + destruct (unusable_gives_null_or_throws data Hu) as [-> | [e ->]]; reflexivity.
    + unfold throwApiError. simpl.
      destruct (get data "error") as [err|]; simpl; [|reflexivity].
      destruct (truthy err); reflexivity.
Qed.

(** X24.  A click on a marker of a station that the component holds sends one
    request and ends with the loading overlay off: either the modal is open
    on the details and the error is as it was, or the modal is as it was and
    the error tells that the details could not be loaded. *)
Theorem marker_click_outcomes fetch stationId s m station :
  mounted s = true ->
  findStation stationId s = Some station ->
  let c := fetchStationDetails fetch stationId s m in
  sent c = [detailsUrl stationId] /\ notFound c = None /\
  isLoadingDetails (modal c) = false /\
  stationsCache (component c) = stationsCache s /\
  ((exists details,
      fst (fetchChargingStationDetails fetch stationId) = Normal (Some details) /\
      selectedStation (modal c) = Some details /\ isModalOpen (modal c) = true /\
      error (component c) = error s) \/
   (fst (fetchChargingStationDetails fetch stationId) = Normal None /\
    selectedStation (modal c) = selectedStation m /\
    isModalOpen (modal c) = isModalOpen m /\
    error (component c) = Some failedToLoad)).
Proof.
  intros Hm Hf c. subst c. unfold fetchStationDetails. rewrite Hf.
  destruct (fetchChargingStationDetails_total fetch stationId) as (r & written & E).
  rewrite E. simpl fst.
  assert (Hm1 : mounted (consoleError written s) = true) by exact Hm.
  destruct r as [details|]; cbv zeta.
  - unfold setIsLoadingDetails, setIsModalOpen, setSelectedStation.
    rewrite Hm1, Hm. simpl. repeat split; eauto 10.
  - unfold setIsLoadingDetails, setError. rewrite Hm1, Hm. simpl.
    repeat split; auto 10.
Qed.

(** X25.  With [useRealData = false] the list that [fetchStationDetails] searches
    is empty: a click on a marker changes nothing and sends nothing, it only
    writes that the station was not found. *)
Theorem static_data_marker_click_finds_nothing props events s fetch stationId m :
  useRealData props = false ->
  run props (init props) events = Some s ->
  fetchStationDetails fetch stationId s m
  = {| component := s; modal := m; sent := []; notFound := Some stationId |}.
Proof.
  intros Hu Hr.
  destruct (run_silent props events s Hu Hr) as (_ & _ & _ & Hc & _).
  unfold fetchStationDetails, findStation, stations. rewrite Hc. reflexivity.
Qed.

(** *** Witnesses *)

Lemma marker_click_outcomes_witness :
  exists s,
    run defaultProps (init defaultProps) [firstAnswer] = Some s /\
    let c := fetchStationDetails (answeringDetails minimalDetails) "A" s closedModal in
    sent c = [detailsUrl "A"] /\ notFound c = None /\
    isLoadingDetails (modal c) = false /\
    stationsCache (component c) = stationsCache s /\
    ((exists details,
        fst (fetchChargingStationDetails (answeringDetails minimalDetails) "A")
        = Normal (Some details) /\
        selectedStation (modal c) = Some details /\ isModalOpen (modal c) = true /\
        error (component c) = error s) \/
     (fst (fetchChargingStationDetails (answeringDetails minimalDetails) "A") = Normal None /\
      selectedStation (modal c) = selectedStation closedModal /\
      isModalOpen (modal c) = isModalOpen closedModal /\
      error (component c) = Some failedToLoad)).
Proof.
  eexists. split; [vm_compute; reflexivity|].
  match goal with
  | |- let c := fetchStationDetails _ _ ?s _ in _ =>
      assert (Hm : mounted s = true) by (vm_compute; reflexivity);
      assert (Hf : findStation "A" s = Some CoordinatorSpec.stationA)
        by (vm_compute; reflexivity)
  end.
  exact (marker_click_outcomes (answeringDetails minimalDetails) "A" _ closedModal
           CoordinatorSpec.stationA Hm Hf).
Defined.

Lemma static_data_marker_click_finds_nothing_witness :
  exists s,
    run staticProps (init staticProps) [pan] = Some s /\
    fetchStationDetails (answeringDetails minimalDetails) "A" s closedModal
    = {| component := s; modal := closedModal; sent := []; notFound := Some "A" |}.
Proof.
  eexists. split; [vm_compute; reflexivity|].
  match goal with
  | |- fetchStationDetails _ _ ?s _ = _ =>
      assert (Hrun : run staticProps (init staticProps) [pan] = Some s)
        by (vm_compute; reflexivity)
  end.
  assert (Hu : useRealData staticProps = false) by (vm_compute; reflexivity).
  exact (static_data_marker_click_finds_nothing staticProps [pan] _
           (answeringDetails minimalDetails) "A" closedModal Hu Hrun).
Defined.

End DetailsProperties.
